(** * awscli/customizations/s3/fileinfo.py: transfer tasks

    A shallow embedding of [fileinfo.py]: the option pipeline
    ([_handle_object_params]), the transfer methods of [FileInfo]
    ([upload], [download], [copy], [delete], [move]), the local persistence
    helper [save_file] and the bucket operations of [TaskInfo].

    Python dictionaries are finite maps ([gmap string _]); a method that
    raises returns [Raise e]; calls that reach the operating system or the
    remote store go through the handlers of a [Platform] and are logged, in
    order, in a trace of events. *)

From Stdlib Require Import ZArith QArith Ascii String.
From stdpp Require Import gmap strings list pretty.

Open Scope string_scope.
Open Scope list_scope.
Open Scope Z_scope.

(** ** Python values and exceptions *)

Abbreviation bytes := (list Byte.byte).

Inductive exn : Type :=
| KeyError (key : string)
| ValueError (msg : string)
| TypeError (msg : string)
| IndexError
| AttributeError (msg : string)
| MD5Error
| Exception (msg : string)
| OSError (errno : Z)
| IOError (errno : Z)
| ServiceError (msg : string).

Inductive result (A : Type) : Type :=
| Ok (a : A)
| Raise (e : exn).
Arguments Ok {A} a.
Arguments Raise {A} e.

(** A computation over a mutable store [S] that may raise. *)
Definition SE (S A : Type) : Type := S → result A * S.

Definition ret {S A} (a : A) : SE S A := fun s => (Ok a, s).
Definition raise {S A} (e : exn) : SE S A := fun s => (Raise e, s).
Definition bind {S A B} (m : SE S A) (k : A → SE S B) : SE S B :=
  fun s => match m s with
           | (Ok a, s') => k a s'
           | (Raise e, s') => (Raise e, s')
           end.
Definition lift {S A} (r : result A) : SE S A := fun s => (r, s).

(** [try: m except Exception as e: h e] *)
Definition try_except {S A} (m : SE S A) (h : exn → SE S A) : SE S A :=
  fun s => match m s with
           | (Ok a, s') => (Ok a, s')
           | (Raise e, s') => h e s'
           end.

Declare Scope se_scope.
Delimit Scope se_scope with se.
Notation "x <- c1 ;; c2" := (bind c1 (fun x => c2))
  (at level 100, c1 at next level, right associativity) : se_scope.
Notation "c1 ;; c2" := (bind c1 (fun _ => c2))
  (at level 100, right associativity) : se_scope.
Open Scope se_scope.

(** Values of the configuration options ([self.parameters]): [None], a flag,
    a string, or a list of strings as the argument parser produces them. *)
Inductive oval : Type :=
| ONone
| OBool (b : bool)
| OStr (s : string)
| OList (l : list string).

(** Python truthiness of an option value. *)
Definition truthy (v : oval) : bool :=
  match v with
  | ONone => false
  | OBool b => b
  | OStr s => negb (String.eqb s "")
  | OList l => match l with [] => false | _ :: _ => true end
  end.

(** Values of request parameters ([params]). *)
Inductive pval (Endpoint : Type) : Type :=
| PNone
| PStr (s : string)
| PEndpoint (e : Endpoint)
| PByteArray (b : bytes)
| PStringIO (b : bytes)
| PDict (d : list (string * option string)).
Arguments PNone {Endpoint}.
Arguments PStr {Endpoint} s.
Arguments PEndpoint {Endpoint} e.
Arguments PByteArray {Endpoint} b.
Arguments PStringIO {Endpoint} b.
Arguments PDict {Endpoint} d.

(** Values found in a parsed response ([response_data]). *)
Inductive rval : Type :=
| RStr (s : string)
| RBody (payload : bytes).

(** [d[k]] on a dictionary. *)
Definition getitem {V} (d : gmap string V) (k : string) : result V :=
  match d !! k with
  | Some v => Ok v
  | None => Raise (KeyError k)
  end.

(** [v[0]] on an option value. *)
Definition first_item {Endpoint} (v : oval) : result (pval Endpoint) :=
  match v with
  | OList (x :: _) => Ok (PStr x)
  | OList [] => Raise IndexError
  | OStr (String c _) => Ok (PStr (String c ""))
  | OStr "" => Raise IndexError
  | OBool _ => Raise (TypeError "'bool' object is not subscriptable")
  | ONone => Raise (TypeError "'NoneType' object is not subscriptable")
  end.

(** The items a [for] loop visits in an option value. *)
Fixpoint chars (s : string) : list string :=
  match s with
  | "" => []
  | String c rest => String c "" :: chars rest
  end.

Definition iter_items (v : oval) : result (list string) :=
  match v with
  | OList l => Ok l
  | OStr s => Ok (chars s)
  | OBool _ => Raise (TypeError "'bool' object is not iterable")
  | ONone => Raise (TypeError "'NoneType' object is not iterable")
  end.

(** [s.split('=', 1)]: cut at the first ['='], if there is one. *)
Fixpoint split_eq_1 (s : string) : list string :=
  match s with
  | "" => [""]
  | String c rest =>
      if Ascii.eqb c "="%char then [""; rest]
      else match split_eq_1 rest with
           | a :: tl => String c a :: tl
           | [] => [String c ""]
           end
  end.

(** [s[1:-1]] *)
Fixpoint drop_last (s : string) : string :=
  match s with
  | "" => ""
  | String c "" => ""
  | String c rest => String c (drop_last rest)
  end.

Definition slice_1_m1 (s : string) : string :=
  match s with
  | "" => ""
  | String _ rest => drop_last rest
  end.

(** ** Time stamps *)

(** A [datetime] value: calendar fields, microseconds, and the daylight
    saving flag its [tzinfo] reports (-1 when it has none). *)
Record datetime : Type := {
  year : Z; month : Z; day : Z;
  hour : Z; minute : Z; second : Z;
  microsecond : Z;
  dst_flag : Z
}.

(** The fields of a [time.struct_time] that [time.mktime] reads (it ignores
    the week day and the day of the year). *)
Record struct_time : Type := {
  tm_year : Z; tm_mon : Z; tm_mday : Z;
  tm_hour : Z; tm_min : Z; tm_sec : Z;
  tm_isdst : Z
}.

(** [datetime.timetuple()]: the microseconds are not part of the tuple. *)
Definition timetuple (d : datetime) : struct_time :=
  {| tm_year := year d; tm_mon := month d; tm_mday := day d;
     tm_hour := hour d; tm_min := minute d; tm_sec := second d;
     tm_isdst := dst_flag d |}.

(** [int(x)] on a float, the float taken as a rational: truncation towards
    zero. *)
Definition py_int (x : Q) : Z := Z.quot (Qnum x) (Z.pos (Qden x)).

(** ** The platform: operating system, interpreter and the helpers of
    [awscli.customizations.s3.utils] and [botocore] that [fileinfo.py]
    imports *)

Record Platform : Type := {
  Session : Type;
  Service : Type;
  Endpoint : Type;
  Http : Type;
  World : Type;
  (* botocore *)
  get_service : Session → string → Service;
  get_endpoint : Service → string → Endpoint;
  quote : string → string;                  (* quote(s.encode('utf-8'), safe='/~') *)
  (* awscli.customizations.s3.utils *)
  find_bucket_key : string → string * string;
  guess_content_type : string → option string;
  retrieve_http_etag : Http → result string;
  md5_hexdigest : bytes → string;
  operate_call : option Service → string → gmap string (pval Endpoint) →
                 World → result (gmap string rval * Http) * World;
  (* interpreter and operating system *)
  python26 : bool;                          (* sys.version_info[:2] == (2, 6) *)
  os_path_dirname : string → string;
  os_path_exists : string → World → bool;
  os_makedirs : string → World → result unit * World;
  os_open : string → string → World → result unit * World;
  os_read : string → World → result bytes * World;
  os_write : string → bytes → World → result unit * World;
  os_close : string → World → result unit * World;
  os_utime : string → Z → Z → World → result unit * World;
  os_remove : string → World → result unit * World;
  time_mktime : struct_time → result Q
}.

Section FileInfoModel.

Context (P : Platform).

Abbreviation params := (gmap string (pval (Endpoint P))).
Abbreviation response := (gmap string rval).

(** What the program asks of its environment, in the order it asks. *)
Inductive event : Type :=
| EvOpen (filename mode : string)
| EvRead (filename : string)
| EvWrite (filename : string) (data : bytes)
| EvClose (filename : string)
| EvExists (path : string)
| EvMakedirs (path : string)
| EvUtime (filename : string) (atime mtime : Z)
| EvRemove (filename : string)
| EvOperate (cmd : string) (request : params).

Record state : Type := {
  world : World P;
  trace : list event
}.

Abbreviation M := (SE state).

(** A call into the platform: its event is logged, its handler runs. *)
Definition syscall {A} (ev : event) (h : World P → result A * World P) : M A :=
  fun s => let (r, w) := h (world s) in
           (r, {| world := w; trace := trace s ++ [ev] |}).

Definition path_exists (d : string) : M bool :=
  syscall (EvExists d) (fun w => (Ok (os_path_exists P d w), w)).
Definition makedirs (d : string) : M unit :=
  syscall (EvMakedirs d) (os_makedirs P d).
Definition open_file (filename mode : string) : M unit :=
  syscall (EvOpen filename mode) (os_open P filename mode).
Definition file_read (filename : string) : M bytes :=
  syscall (EvRead filename) (os_read P filename).
Definition file_write (filename : string) (data : bytes) : M unit :=
  syscall (EvWrite filename data) (os_write P filename data).
Definition file_close (filename : string) : M unit :=
  syscall (EvClose filename) (os_close P filename).
Definition utime (filename : string) (atime mtime : Z) : M unit :=
  syscall (EvUtime filename atime mtime) (os_utime P filename atime mtime).
Definition remove (filename : string) : M unit :=
  syscall (EvRemove filename) (os_remove P filename).
Definition operate (service : option (Service P)) (cmd : string) (kwargs : params)
  : M (response * Http P) :=
  syscall (EvOperate cmd kwargs) (operate_call P service cmd kwargs).

(** [with open(filename, mode) as f: body]: the file is closed however the
    body ends; an exception of [close] replaces the body's outcome. *)
Definition with_open {A} (filename mode : string) (body : M A) : M A :=
  open_file filename mode ;;
  fun s => let (r, s1) := body s in
           match file_close filename s1 with
           | (Ok _, s2) => (r, s2)
           | (Raise e, s2) => (Raise e, s2)
           end.

(** Modelled from the spec: [check_etag] of [awscli.customizations.s3.utils]
    is not among the sources; the spec has it verify the returned checksum
    against the checksum computed locally from the bytes, a mismatch being an
    integrity failure of its own kind. *)
Definition check_etag {S} (etag : string) (data : bytes) : SE S unit :=
  if String.eqb etag (md5_hexdigest P data) then ret tt else raise MD5Error.

(** ** Module functions *)

Definition read_file (filename : string) : M bytes :=
  with_open filename "rb" (file_read filename).

Definition body_read (v : rval) : result bytes :=
  match v with
  | RBody b => Ok b
  | RStr _ => Raise (AttributeError "'str' object has no attribute 'read'")
  end.

Definition etag_slice (v : rval) : result string :=
  match v with
  | RStr s => Ok (slice_1_m1 s)
  | RBody _ => Raise (TypeError "object is not subscriptable")
  end.

(** Lines 64-68 of [save_file]: write the payload, then set the times. *)
Definition save_file_write (filename : string) (data : bytes)
    (last_update : option datetime) : M unit :=
  with_open filename "wb" (file_write filename data) ;;
  last_update_tuple <-
    lift (match last_update with
          | Some d => Ok (timetuple d)
          | None => Raise (AttributeError
                             "'NoneType' object has no attribute 'timetuple'")
          end) ;;
  mod_timestamp <- lift (time_mktime P last_update_tuple) ;;
  utime filename (py_int mod_timestamp) (py_int mod_timestamp).

Definition save_file (filename : string) (response_data : response)
    (last_update : option datetime) : M unit :=
  body <- lift (getitem response_data "Body") ;;
  data <- lift (body_read body) ;;
  etag_v <- lift (getitem response_data "ETag") ;;
  etag <- lift (etag_slice etag_v) ;;
  check_etag etag data ;;
  let d := os_path_dirname P filename in
  try_except
    (exists_d <- path_exists d ;;
     if negb exists_d then makedirs d else ret tt)
    (fun _ => ret tt) ;;
  save_file_write filename data last_update.

(** ** [TaskInfo] *)

Record TaskInfo : Type := {
  src : string;
  src_type : option string;
  operation : option string;
  session : option (Session P);
  region : option string;
  service : option (Service P);
  endpoint : option (Endpoint P)
}.

Definition set_session (self : TaskInfo) (sess : Session P) (reg : string)
  : TaskInfo :=
  let svc := get_service P sess "s3" in
  {| src := src self; src_type := src_type self; operation := operation self;
     session := Some sess; region := Some reg;
     service := Some svc; endpoint := Some (get_endpoint P svc reg) |}.

Definition TaskInfo_init (src0 : string) (src_type0 operation0 : option string)
    (session0 : option (Session P)) (region0 : option string) : TaskInfo :=
  let self := {| src := src0; src_type := src_type0; operation := operation0;
                 session := session0; region := region0;
                 service := None; endpoint := None |} in
  match session0, region0 with
  | Some sess, Some reg =>
      if negb (String.eqb reg "") then set_session self sess reg else self
  | _, _ => self
  end.

(** A Python value that is [None] or a string, as a request parameter. *)
Definition pval_of_str (v : option string) : pval (Endpoint P) :=
  match v with Some s => PStr s | None => PNone end.
Definition pval_of_endpoint (v : option (Endpoint P)) : pval (Endpoint P) :=
  match v with Some e => PEndpoint e | None => PNone end.

(** [v == s] for [v] that is [None] or a string. *)
Definition str_eq (v : option string) (s : string) : bool :=
  match v with Some x => String.eqb x s | None => false end.

Definition make_bucket (self : TaskInfo) : M unit :=
  let (bucket, key) := find_bucket_key P (src self) in
  let bucket_config := PDict [("LocationConstraint", region self)] in
  let params0 : params :=
    <["bucket" := PStr bucket]>
      (<["endpoint" := pval_of_endpoint (endpoint self)]> ∅) in
  let params1 :=
    if negb (str_eq (region self) "us-east-1")
    then <["create_bucket_configuration" := bucket_config]> params0
    else params0 in
  operate (service self) "CreateBucket" params1 ;;
  ret tt.

Definition remove_bucket (self : TaskInfo) : M unit :=
  let (bucket, key) := find_bucket_key P (src self) in
  let params0 : params :=
    <["bucket" := PStr bucket]>
      (<["endpoint" := pval_of_endpoint (endpoint self)]> ∅) in
  operate (service self) "DeleteBucket" params0 ;;
  ret tt.

(** ** [FileInfo] *)

Record FileInfo : Type := {
  task : TaskInfo;
  dest : string;
  dest_type : option string;
  compare_key : option string;
  size : option Z;
  last_update : option datetime;
  parameters : gmap string oval
}.

Definition FileInfo_init (base : TaskInfo) (dest0 : string)
    (compare_key0 : option string) (size0 : option Z)
    (last_update0 : option datetime) (dest_type0 : option string)
    (parameters0 : option (gmap string oval)) : FileInfo :=
  let default : gmap string oval := <["sse" := ONone]> (<["acl" := ONone]> ∅) in
  {| task := base; dest := dest0; dest_type := dest_type0;
     compare_key := compare_key0; size := size0; last_update := last_update0;
     parameters := match parameters0 with
                   | Some m => if decide (m = ∅) then default else m
                   | None => default
                   end |}.

Definition _permission_to_param (permission : string) : result string :=
  if String.eqb permission "read" then Ok "grant_read"
  else if String.eqb permission "full" then Ok "grant_full_control"
  else if String.eqb permission "readacl" then Ok "grant_read_acp"
  else if String.eqb permission "writeacl" then Ok "grant_write_acp"
  else Raise (ValueError "permission must be one of: read|readacl|writeacl|full").

(** [params[k] = v] *)
Definition setitem (k : string) (v : pval (Endpoint P)) : SE params unit :=
  fun p => (Ok tt, <[k := v]> p).

(** [a, b = l] *)
Definition unpack2 (l : list string) : result (string * string) :=
  match l with
  | [a; b] => Ok (a, b)
  | [] | [_] => Raise (ValueError "need more than 1 value to unpack")
  | _ => Raise (ValueError "too many values to unpack")
  end.

(** The body of [for grant in self.parameters['grants']]. *)
Definition grant_step (grant : string) : SE params unit :=
  pg <- try_except (lift (unpack2 (split_eq_1 grant)))
          (fun e => match e with
                    | ValueError _ =>
                        raise (ValueError
                          "grants should be of the form permission=principal")
                    | _ => raise e
                    end) ;;
  name <- lift (_permission_to_param (fst pg)) ;;
  setitem name (PStr (snd pg)).

Fixpoint grants_loop (grants : list string) : SE params unit :=
  match grants with
  | [] => ret tt
  | grant :: rest => grant_step grant ;; grants_loop rest
  end.

Definition _inject_content_type (filename : string) : SE params unit :=
  match guess_content_type P filename with
  | Some guessed_type => setitem "content_type" (PStr guessed_type)
  | None => ret tt
  end.

(** [if self.parameters[opt]: body] *)
Definition if_option (self : FileInfo) (opt : string)
    (body : oval → SE params unit) : SE params unit :=
  v <- lift (getitem (parameters self) opt) ;;
  if truthy v then body v else ret tt.

(** [params[name] = self.parameters[opt][0]] *)
Definition set_first (name : string) (v : oval) : SE params unit :=
  x <- lift (first_item v) ;; setitem name x.

Definition _handle_object_params (self : FileInfo) : SE params unit :=
  if_option self "acl" (set_first "acl") ;;
  if_option self "grants" (fun v => l <- lift (iter_items v) ;; grants_loop l) ;;
  if_option self "sse" (fun _ => setitem "server_side_encryption" (PStr "AES256")) ;;
  if_option self "storage_class" (set_first "storage_class") ;;
  if_option self "website_redirect" (set_first "website_redirect_location") ;;
  if_option self "guess_mime_type" (fun _ => _inject_content_type (src (task self))) ;;
  if_option self "content_type" (set_first "content_type") ;;
  if_option self "cache_control" (set_first "cache_control") ;;
  if_option self "content_disposition" (set_first "content_disposition") ;;
  if_option self "content_encoding" (set_first "content_encoding") ;;
  if_option self "content_language" (set_first "content_language") ;;
  if_option self "expires" (set_first "expires").

(** Run a computation on the local dictionary [p]; the dictionary it leaves
    is the value. *)
Definition on_params (m : SE params unit) (p : params) : M params :=
  fun s => match m p with
           | (Ok _, p') => (Ok p', s)
           | (Raise e, _) => (Raise e, s)
           end.

(** [{'endpoint': self.endpoint, 'bucket': bucket, 'key': key}] *)
Definition object_params (self : FileInfo) (bucket key : string) : params :=
  <["key" := PStr key]>
    (<["bucket" := PStr bucket]>
       (<["endpoint" := pval_of_endpoint (endpoint (task self))]> ∅)).

(** Lines 285-292 of [upload]: the request dictionary before the options
    are applied. *)
Definition upload_params (self : FileInfo) (body : bytes) : params :=
  let (bucket, key) := find_bucket_key P (dest self) in
  let stream_body : pval (Endpoint P) :=
    if python26 P then PStringIO body else PByteArray body in
  let params0 := object_params self bucket key in
  match body with
  | [] => params0
  | _ :: _ => <["body" := stream_body]> params0
  end.

Definition upload (self : FileInfo) : M unit :=
  body <- read_file (src (task self)) ;;
  params2 <- on_params (_handle_object_params self) (upload_params self body) ;;
  r <- operate (service (task self)) "PutObject" params2 ;;
  etag <- lift (retrieve_http_etag P (snd r)) ;;
  check_etag etag body.

Definition download (self : FileInfo) : M unit :=
  let (bucket, key) := find_bucket_key P (src (task self)) in
  let params0 := object_params self bucket key in
  r <- operate (service (task self)) "GetObject" params0 ;;
  save_file (dest self) (fst r) (last_update self).

(** Lines 319-322 of [copy]. *)
Definition copy_params (self : FileInfo) : params :=
  let copy_source := quote P (src (task self)) in
  let (bucket, key) := find_bucket_key P (dest self) in
  <["key" := PStr key]>
    (<["copy_source" := PStr copy_source]>
       (<["bucket" := PStr bucket]>
          (<["endpoint" := pval_of_endpoint (endpoint (task self))]> ∅))).

Definition copy (self : FileInfo) : M unit :=
  params1 <- on_params (_handle_object_params self) (copy_params self) ;;
  operate (service (task self)) "CopyObject" params1 ;;
  ret tt.

Definition delete (self : FileInfo) : M unit :=
  if str_eq (src_type (task self)) "s3" then
    let (bucket, key) := find_bucket_key P (src (task self)) in
    let params0 := object_params self bucket key in
    operate (service (task self)) "DeleteObject" params0 ;;
    ret tt
  else
    remove (src (task self)).

(** Lines 343-352 of [move]: the transfer chosen by the two kinds. *)
Definition move_transfer (self : FileInfo) : M unit :=
  let src := src_type (task self) in
  let dest := dest_type self in
  if str_eq src "local" && str_eq dest "s3" then upload self
  else if str_eq src "s3" && str_eq dest "s3" then copy self
  else if str_eq src "s3" && str_eq dest "local" then download self
  else raise (Exception "Invalid path arguments for mv").

Definition move (self : FileInfo) : M unit :=
  move_transfer self ;;
  delete self.

Definition create_multipart_upload (self : FileInfo) : M rval :=
  let (bucket, key) := find_bucket_key P (dest self) in
  let params0 := object_params self bucket key in
  params1 <- on_params (_handle_object_params self) params0 ;;
  r <- operate (service (task self)) "CreateMultipartUpload" params1 ;;
  lift (getitem (fst r) "UploadId").

End FileInfoModel.

(** ** A platform in memory

    A small file system and object store on which the model runs: files with
    their two times, a list of directories, objects keyed by [bucket/key].
    The store can be told to report a wrong ETag ([corrupt]) or to refuse
    every call ([offline]). *)
Module Mem.

Record file : Type := { content : bytes; atime : Z; mtime : Z }.

Record world : Type := {
  files : gmap string file;
  dirs : list string;
  store : gmap string bytes;
  corrupt : bool;
  offline : bool
}.

Definition slash : ascii := "/"%char.
Definition dquote : ascii := "034"%char.

(** [posixpath.dirname] *)
Fixpoint drop_to_slash (l : list ascii) : list ascii :=
  match l with
  | [] => []
  | c :: rest => if Ascii.eqb c slash then l else drop_to_slash rest
  end.
Fixpoint drop_slashes (l : list ascii) : list ascii :=
  match l with
  | [] => []
  | c :: rest => if Ascii.eqb c slash then drop_slashes rest else l
  end.
Definition dirname (p : string) : string :=
  let head := drop_to_slash (rev (list_ascii_of_string p)) in
  match drop_slashes head with
  | [] => string_of_list_ascii (rev head)
  | stripped => string_of_list_ascii (rev stripped)
  end.

(** [find_bucket_key]: the bucket is what precedes the first ['/']. *)
Fixpoint bucket_key (s : string) : string * string :=
  match s with
  | "" => ("", "")
  | String c rest =>
      if Ascii.eqb c slash then ("", rest)
      else let (b, k) := bucket_key rest in (String c b, k)
  end.

Definition ends_with (suffix s : string) : bool :=
  String.eqb
    (substring (String.length s - String.length suffix) (String.length suffix) s)
    suffix
  && (String.length suffix <=? String.length s)%nat.

Definition guess (filename : string) : option string :=
  if ends_with ".json" filename then Some "application/json"
  else if ends_with ".txt" filename then Some "text/plain"
  else None.

(** The digest of the double: the payload itself, read as text. *)
Definition digest (data : bytes) : string := string_of_list_byte data.

Definition quoted (s : string) : string :=
  String dquote (s +:+ String dquote "").

Definition etag_of (w : world) (data : bytes) : string :=
  quoted (if corrupt w then "0" +:+ digest data else digest data).

Definition with_store (w : world) (st : gmap string bytes) : world :=
  {| files := files w; dirs := dirs w; store := st;
     corrupt := corrupt w; offline := offline w |}.
Definition with_files (w : world) (fs : gmap string file) : world :=
  {| files := fs; dirs := dirs w; store := store w;
     corrupt := corrupt w; offline := offline w |}.
Definition with_dirs (w : world) (ds : list string) : world :=
  {| files := files w; dirs := ds; store := store w;
     corrupt := corrupt w; offline := offline w |}.

Definition str_param (p : gmap string (pval string)) (k : string) : string :=
  match p !! k with Some (PStr s) => s | _ => "" end.
Definition body_param (p : gmap string (pval string)) : bytes :=
  match p !! "body" with
  | Some (PByteArray b) | Some (PStringIO b) => b
  | _ => []
  end.
Definition object_path (p : gmap string (pval string)) : string :=
  str_param p "bucket" +:+ "/" +:+ str_param p "key".

Definition call (service : option string) (cmd : string)
    (p : gmap string (pval string)) (w : world)
  : result (gmap string rval * string) * world :=
  match service with
  | None => (Raise (AttributeError "'NoneType' object has no attribute 'get_operation'"), w)
  | Some _ =>
    if offline w then (Raise (ServiceError cmd), w)
    else if String.eqb cmd "PutObject" then
      let data := body_param p in
      (Ok ({["ETag" := RStr (etag_of w data)]}, etag_of w data),
       with_store w (<[object_path p := data]> (store w)))
    else if String.eqb cmd "GetObject" then
      match store w !! object_path p with
      | Some data =>
          (Ok (<["ETag" := RStr (etag_of w data)]> {["Body" := RBody data]},
               etag_of w data), w)
      | None => (Raise (ServiceError "NoSuchKey"), w)
      end
    else if String.eqb cmd "CopyObject" then
      match store w !! str_param p "copy_source" with
      | Some data =>
          (Ok (∅, ""), with_store w (<[object_path p := data]> (store w)))
      | None => (Raise (ServiceError "NoSuchKey"), w)
      end
    else if String.eqb cmd "DeleteObject" then
      (Ok (∅, ""), with_store w (base.delete (object_path p) (store w)))
    else if String.eqb cmd "CreateBucket" then (Ok (∅, ""), w)
    else if String.eqb cmd "DeleteBucket" then (Ok (∅, ""), w)
    else if String.eqb cmd "CreateMultipartUpload" then
      (Ok ({["UploadId" := RStr "upload-1"]}, ""), w)
    else (Raise (ServiceError cmd), w)
  end.

Definition ENOENT : Z := 2.
Definition EEXIST : Z := 17.

Definition exists_ (path : string) (w : world) : bool :=
  existsb (String.eqb path) (dirs w)
  || match files w !! path with Some _ => true | None => false end.

Definition makedirs (path : string) (w : world) : result unit * world :=
  if String.eqb path "" then (Raise (OSError ENOENT), w)
  else if exists_ path w then (Raise (OSError EEXIST), w)
  else (Ok tt, with_dirs w (path :: dirs w)).

Definition open_ (filename mode : string) (w : world) : result unit * world :=
  if String.eqb mode "wb" then
    if String.eqb (dirname filename) ""
       || existsb (String.eqb (dirname filename)) (dirs w)
    then (Ok tt, with_files w (<[filename :=
                   {| content := []; atime := 0; mtime := 0 |}]> (files w)))
    else (Raise (IOError ENOENT), w)
  else
    match files w !! filename with
    | Some _ => (Ok tt, w)
    | None => (Raise (IOError ENOENT), w)
    end.

Definition read (filename : string) (w : world) : result bytes * world :=
  match files w !! filename with
  | Some f => (Ok (content f), w)
  | None => (Raise (IOError ENOENT), w)
  end.

Definition write (filename : string) (data : bytes) (w : world)
  : result unit * world :=
  match files w !! filename with
  | Some f => (Ok tt, with_files w (<[filename :=
                 {| content := content f ++ data;
                    atime := atime f; mtime := mtime f |}]> (files w)))
  | None => (Raise (IOError ENOENT), w)
  end.

Definition close (filename : string) (w : world) : result unit * world :=
  (Ok tt, w).

Definition utime (filename : string) (a m : Z) (w : world)
  : result unit * world :=
  match files w !! filename with
  | Some f => (Ok tt, with_files w (<[filename :=
                 {| content := content f; atime := a; mtime := m |}]> (files w)))
  | None => (Raise (OSError ENOENT), w)
  end.

Definition remove (filename : string) (w : world) : result unit * world :=
  match files w !! filename with
  | Some _ => (Ok tt, with_files w (base.delete filename (files w)))
  | None => (Raise (OSError ENOENT), w)
  end.

(** [time.mktime] in UTC: days since 1970-01-01 of a civil date, then
    seconds. *)
Definition days_from_civil (y m d : Z) : Z :=
  let y' := if m <=? 2 then y - 1 else y in
  let era := y' / 400 in
  let yoe := y' - era * 400 in
  let mp := if m <=? 2 then m + 9 else m - 3 in
  let doy := (153 * mp + 2) / 5 + d - 1 in
  let doe := yoe * 365 + yoe / 4 - yoe / 100 + doy in
  era * 146097 + doe - 719468.

Definition mktime (t : struct_time) : result Q :=
  Ok (inject_Z
        (((days_from_civil (tm_year t) (tm_mon t) (tm_mday t) * 24
           + tm_hour t) * 60 + tm_min t) * 60 + tm_sec t)).

Definition platform : Platform :=
  {| Session := unit; Service := string; Endpoint := string;
     Http := string; World := world;
     get_service := fun _ name => name;
     get_endpoint := fun _ reg => reg;
     quote := fun s => s;
     find_bucket_key := bucket_key;
     guess_content_type := guess;
     retrieve_http_etag := fun h => Ok (slice_1_m1 h);
     md5_hexdigest := digest;
     operate_call := call;
     python26 := false;
     os_path_dirname := dirname;
     os_path_exists := exists_;
     os_makedirs := makedirs;
     os_open := open_;
     os_read := read;
     os_write := write;
     os_close := close;
     os_utime := utime;
     os_remove := remove;
     time_mktime := mktime |}.

End Mem.

(** ** Vocabulary of the specification *)

(** A grant entry [permission=principal]: whether it has an ['='], and the
    text on each side of the first one. *)
Fixpoint has_eq (s : string) : bool :=
  match s with
  | "" => false
  | String c rest => Ascii.eqb c "="%char || has_eq rest
  end.

Fixpoint before_eq (s : string) : string :=
  match s with
  | "" => ""
  | String c rest => if Ascii.eqb c "="%char then "" else String c (before_eq rest)
  end.

Fixpoint after_eq (s : string) : string :=
  match s with
  | "" => ""
  | String c rest => if Ascii.eqb c "="%char then rest else after_eq rest
  end.

(** The four grant slots of a request, by permission keyword. *)
Definition grant_slot (permission : string) : option string :=
  if decide (permission = "read") then Some "grant_read"
  else if decide (permission = "full") then Some "grant_full_control"
  else if decide (permission = "readacl") then Some "grant_read_acp"
  else if decide (permission = "writeacl") then Some "grant_write_acp"
  else None.

Definition grant_ok (grant : string) : bool :=
  has_eq grant && bool_decide (is_Some (grant_slot (before_eq grant))).

Definition set_grant {E} (p : gmap string (pval E)) (grant : string)
  : gmap string (pval E) :=
  match grant_slot (before_eq grant) with
  | Some slot => <[slot := PStr (after_eq grant)]> p
  | None => p
  end.

(** The message of the validation error a malformed entry earns. *)
Definition grant_error (grant : string) : string :=
  if has_eq grant
  then "permission must be one of: read|readacl|writeacl|full"
  else "grants should be of the form permission=principal".

Definition first_bad_grant (grants : list string) : option string :=
  List.find (fun g => negb (grant_ok g)) grants.

(** The request parameters the option pipeline may assign. *)
Definition option_keys : list string :=
  ["acl"; "grant_read"; "grant_full_control"; "grant_read_acp";
   "grant_write_acp"; "server_side_encryption"; "storage_class";
   "website_redirect_location"; "content_type"; "cache_control";
   "content_disposition"; "content_encoding"; "content_language"; "expires"].

(** Events by kind. *)
Definition is_remote_call {P} (ev : event P) : bool :=
  match ev with EvOperate _ _ _ => true | _ => false end.

Definition is_delete {P} (ev : event P) : bool :=
  match ev with
  | EvRemove _ _ => true
  | EvOperate _ cmd _ => String.eqb cmd "DeleteObject"
  | _ => false
  end.

Definition is_file_event {P} (ev : event P) : bool :=
  match ev with
  | EvOpen _ _ _ | EvRead _ _ | EvWrite _ _ _ | EvClose _ _ => true
  | _ => false
  end.

Definition is_dir_event {P} (ev : event P) : bool :=
  match ev with
  | EvExists _ _ | EvMakedirs _ _ => true
  | _ => false
  end.

Definition is_local {P} (ev : event P) : bool := negb (is_remote_call ev).
Definition keeps_source {P} (ev : event P) : bool := negb (is_delete ev).

(** [m] only appends events that satisfy [Q] to the trace. *)
Definition emits {P A} (Q : event P → bool) (m : SE (state P) A) : Prop :=
  ∀ s r s', m s = (r, s') →
    ∃ evs, trace P s' = trace P s ++ evs ∧ forallb Q evs = true.

(** [m] leaves every key outside [keys] of the dictionary as it was. *)
Definition touches {E A} (keys : list string) (m : SE (gmap string (pval E)) A)
  : Prop :=
  ∀ p r p' k, m p = (r, p') → k ∉ keys → p' !! k = p !! k.

(** The reading of [save_file] under which a failure of [os.makedirs] other
    than "already exists" (errno 17) is fatal: the check passed, the
    directory was missing, its creation raised [e], and [save_file] raises. *)
Definition makedirs_failure_is_fatal (P : Platform) : Prop :=
  ∀ filename (response_data : gmap string rval) last_update data tag
    (s : state P) e w1,
    response_data !! "Body" = Some (RBody data) →
    response_data !! "ETag" = Some (RStr tag) →
    slice_1_m1 tag = md5_hexdigest P data →
    os_path_exists P (os_path_dirname P filename) (world P s) = false →
    os_makedirs P (os_path_dirname P filename) (world P s) = (Raise e, w1) →
    e ≠ OSError 17 →
    ∃ e' s', save_file P filename response_data last_update s = (Raise e', s').

(** A time stamp without its fraction of a second. *)
Definition whole_seconds (d : datetime) : datetime :=
  {| year := year d; month := month d; day := day d;
     hour := hour d; minute := minute d; second := second d;
     microsecond := 0; dst_flag := dst_flag d |}.

(** ** Sample tasks on the platform in memory *)
Module Sample.

Definition hi : bytes := [Byte.x68; Byte.x69].

Definition w0 : Mem.world :=
  {| Mem.files :=
       <["/home/u/empty.txt" :=
           {| Mem.content := []; Mem.atime := 1; Mem.mtime := 1 |}]>
         {["/home/u/a.json" :=
             {| Mem.content := hi; Mem.atime := 1; Mem.mtime := 1 |}]};
     Mem.dirs := ["/home/u"];
     Mem.store := {["bkt/k.txt" := hi]};
     Mem.corrupt := false;
     Mem.offline := false |}.

Definition s0 : state Mem.platform := Build_state Mem.platform w0 [].

(** The same world with a store that reports wrong ETags, and one that
    refuses every call. *)
Definition s_corrupt : state Mem.platform :=
  Build_state Mem.platform
    {| Mem.files := Mem.files w0; Mem.dirs := Mem.dirs w0;
       Mem.store := Mem.store w0; Mem.corrupt := true;
       Mem.offline := false |} [].
Definition s_offline : state Mem.platform :=
  Build_state Mem.platform
    {| Mem.files := Mem.files w0; Mem.dirs := Mem.dirs w0;
       Mem.store := Mem.store w0; Mem.corrupt := false;
       Mem.offline := true |} [].

(** Every option present, as the command line leaves them. *)
Definition options (grants content_type : oval) (guess : bool)
  : gmap string oval :=
  list_to_map
    [("acl", ONone); ("grants", grants); ("sse", OBool false);
     ("storage_class", ONone); ("website_redirect", ONone);
     ("guess_mime_type", OBool guess); ("content_type", content_type);
     ("cache_control", ONone); ("content_disposition", ONone);
     ("content_encoding", ONone); ("content_language", ONone);
     ("expires", ONone)].

Definition last_mod : datetime :=
  {| year := 2014; month := 3; day := 1; hour := 12; minute := 0;
     second := 0; microsecond := 123456; dst_flag := -1 |}.

Definition local_task : TaskInfo Mem.platform :=
  TaskInfo_init Mem.platform "/home/u/a.json" (Some "local") (Some "mv")
    (Some tt) (Some "us-west-2").
Definition remote_task : TaskInfo Mem.platform :=
  TaskInfo_init Mem.platform "bkt/k.txt" (Some "s3") (Some "mv")
    (Some tt) (Some "us-west-2").

Definition file_info (base : TaskInfo Mem.platform) (dest0 dest_kind : string)
    (opts : gmap string oval) : FileInfo Mem.platform :=
  FileInfo_init Mem.platform base dest0 None None (Some last_mod)
    (Some dest_kind) (Some opts).

(** local to s3, s3 to s3, s3 to local, local to local *)
Definition up : FileInfo Mem.platform :=
  file_info local_task "bkt/dir/a.json" "s3"
    (options (OList ["read=alice"]) ONone true).
Definition up_explicit : FileInfo Mem.platform :=
  file_info local_task "bkt/dir/a.json" "s3"
    (options ONone (OList ["text/plain"]) true).
Definition up_bad : FileInfo Mem.platform :=
  file_info local_task "bkt/dir/a.json" "s3"
    (options (OList ["read=alice"; "badformat"]) ONone true).
Definition up_empty : FileInfo Mem.platform :=
  file_info
    (TaskInfo_init Mem.platform "/home/u/empty.txt" (Some "local") (Some "cp")
       (Some tt) (Some "us-west-2"))
    "bkt/empty.txt" "s3" (options ONone ONone false).
Definition cp : FileInfo Mem.platform :=
  file_info remote_task "bkt/copy.txt" "s3" (options ONone ONone false).
Definition down : FileInfo Mem.platform :=
  file_info remote_task "/home/u/new/k.txt" "local" (options ONone ONone false).
Definition down_here : FileInfo Mem.platform :=
  file_info remote_task "k.txt" "local" (options ONone ONone false).
Definition local_local : FileInfo Mem.platform :=
  file_info local_task "/home/u/b.json" "local" (options ONone ONone false).

(** Responses to GetObject: one whose ETag is the digest of its payload,
    one whose ETag is not. *)
Definition response_ok : gmap string rval :=
  <["ETag" := RStr (Mem.quoted "hi")]> {["Body" := RBody hi]}.
Definition response_bad : gmap string rval :=
  <["ETag" := RStr (Mem.quoted "xx")]> {["Body" := RBody hi]}.

End Sample.

(** ** Listing: the module functions [make_last_mod_str] and
    [make_size_str] *)

Fixpoint repeat_char (c : ascii) (n : nat) : string :=
  match n with
  | O => ""
  | S n' => String c (repeat_char c n')
  end.

(** [s.rjust(width, ' ')] and [s.ljust(width, ' ')] *)
Definition rjust (width : nat) (s : string) : string :=
  repeat_char " " (width - String.length s) +:+ s.
Definition ljust (width : nat) (s : string) : string :=
  s +:+ repeat_char " " (width - String.length s).

(** [s.zfill(width)]: zeros on the left, after a leading sign. *)
Definition zfill (width : nat) (s : string) : string :=
  let pad := repeat_char "0" (width - String.length s) in
  match s with
  | String c rest =>
      if Ascii.eqb c "+" || Ascii.eqb c "-" then String c (pad +:+ rest)
      else pad +:+ s
  | "" => pad
  end.

(** A value of a parsed listing: a string or an integer. *)
Inductive jval : Type :=
| JStr (s : string)
| JInt (z : Z).

(** [str(v)] *)
Definition py_str (v : jval) : string :=
  match v with
  | JStr s => s
  | JInt z => pretty z
  end.

(** [dateutil]: [parse] and [astimezone(tzlocal())]. *)
Record Dateutil : Type := {
  dateutil_parse : jval → result datetime;
  astimezone_tzlocal : datetime → result datetime
}.

(** Lines 24-29 of [make_last_mod_str]: the fields, formatted. *)
Definition format_last_mod (last_mod : datetime) : string :=
  let last_mod_str :=
    pretty (year last_mod) +:+ "-" +:+
    zfill 2 (pretty (month last_mod)) +:+ "-" +:+
    zfill 2 (pretty (day last_mod)) +:+ " " +:+
    zfill 2 (pretty (hour last_mod)) +:+ ":" +:+
    zfill 2 (pretty (minute last_mod)) +:+ ":" +:+
    zfill 2 (pretty (second last_mod)) in
  ljust 19 last_mod_str.

Definition make_last_mod_str (D : Dateutil) (last_mod : jval) : result string :=
  match dateutil_parse D last_mod with
  | Raise e => Raise e
  | Ok parsed =>
      match astimezone_tzlocal D parsed with
      | Raise e => Raise e
      | Ok local => Ok (format_last_mod local)
      end
  end.

Definition make_size_str (size : jval) : string :=
  rjust 10 (py_str size).

(** The calendar ranges a [datetime] keeps its fields in. *)
Definition valid_datetime (d : datetime) : bool :=
  (1 <=? year d) && (year d <=? 9999)
  && (1 <=? month d) && (month d <=? 12)
  && (1 <=? day d) && (day d <=? 31)
  && (0 <=? hour d) && (hour d <=? 23)
  && (0 <=? minute d) && (minute d <=? 59)
  && (0 <=? second d) && (second d <=? 59).

(** ** Listing: [TaskInfo.list_objects] *)

(** What reaches the console: [sys.stdout.write], [uni_print] and
    [sys.stdout.flush]. *)
Inductive output : Type :=
| OutWrite (text : string)
| OutUniPrint (text : string)
| OutFlush.

(** What [list_objects] needs beyond the platform: [dateutil], [check_error]
    of [utils], the two listing operations of the service, and the console.
    [get_operation('ListBuckets').call(endpoint)] gives the parsed response;
    [get_operation('ListObjects').paginate(...)] gives the pages, each one
    requested when the loop reaches it. *)
Record Console (P : Platform) : Type := {
  dates : Dateutil;
  check_error : gmap string (list (gmap string jval)) → result unit;
  list_buckets_call :
    option (Service P) → option (Endpoint P) → World P →
    result (gmap string (list (gmap string jval))) * World P;
  paginate :
    option (Service P) → option (Endpoint P) → string → string →
    result (list (World P →
                  result (gmap string (list (gmap string jval))) * World P));
  stdout : output → World P → result unit * World P
}.
Arguments dates {P} _.
Arguments check_error {P} _.
Arguments list_buckets_call {P} _.
Arguments paginate {P} _.
Arguments stdout {P} _.

Definition nl : string := String "010"%char "".

(** [s.split('/')] *)
Fixpoint split_slash (s : string) : list string :=
  match s with
  | "" => [""]
  | String c rest =>
      if Ascii.eqb c "/" then "" :: split_slash rest
      else match split_slash rest with
           | a :: tl => String c a :: tl
           | [] => [String c ""]
           end
  end.

(** [l[-1]] and [l[-2]] *)
Definition item_m1 (l : list string) : result string :=
  match rev l with
  | x :: _ => Ok x
  | [] => Raise IndexError
  end.
Definition item_m2 (l : list string) : result string :=
  match rev l with
  | _ :: x :: _ => Ok x
  | _ => Raise IndexError
  end.

(** [v.split('/')] and [... + v + ...] on a value of the response. *)
Definition split_value (v : jval) : result (list string) :=
  match v with
  | JStr s => Ok (split_slash s)
  | JInt _ => Raise (AttributeError "'int' object has no attribute 'split'")
  end.
Definition text_of (v : jval) : result string :=
  match v with
  | JStr s => Ok s
  | JInt _ => Raise (TypeError "cannot concatenate 'str' and 'int' objects")
  end.

Section Listing.
Context {P : Platform} (C : Console P).

Abbreviation item := (gmap string jval).
Abbreviation listing := (gmap string (list (gmap string jval))).

Record lstate : Type := {
  lworld : World P;
  printed : list output
}.

Abbreviation L := (SE lstate).

Definition say (o : output) : L unit :=
  fun s => let (r, w) := stdout C o (lworld s) in
           (r, {| lworld := w; printed := printed s ++ [o] |}).

(** A call that prints nothing. *)
Definition remote {A} (h : World P → result A * World P) : L A :=
  fun s => let (r, w) := h (lworld s) in
           (r, {| lworld := w; printed := printed s |}).

Fixpoint for_each {A} (body : A → L unit) (l : list A) : L unit :=
  match l with
  | [] => ret tt
  | x :: rest => body x ;; for_each body rest
  end.

(** Lines 135-138: one bucket. *)
Definition print_bucket (bucket : item) : L unit :=
  date <- lift (getitem bucket "CreationDate") ;;
  last_mod_str <- lift (make_last_mod_str (dates C) date) ;;
  name_v <- lift (getitem bucket "Name") ;;
  name <- lift (text_of name_v) ;;
  say (OutUniPrint (last_mod_str +:+ " " +:+ name +:+ nl)) ;;
  say OutFlush.

(** Lines 158-163: one common prefix. *)
Definition print_prefix (common_prefix : item) : L unit :=
  prefix_v <- lift (getitem common_prefix "Prefix") ;;
  prefix_components <- lift (split_value prefix_v) ;;
  prefix <- lift (item_m2 prefix_components) ;;
  let pre_string := rjust 30 "PRE" in
  say (OutUniPrint (pre_string +:+ " " +:+ prefix +:+ "/" +:+ nl)) ;;
  say OutFlush.

(** Lines 165-172: one object. *)
Definition print_content (content : item) : L unit :=
  date <- lift (getitem content "LastModified") ;;
  last_mod_str <- lift (make_last_mod_str (dates C) date) ;;
  size <- lift (getitem content "Size") ;;
  let size_str := make_size_str size in
  key_v <- lift (getitem content "Key") ;;
  filename_components <- lift (split_value key_v) ;;
  filename <- lift (item_m1 filename_components) ;;
  say (OutUniPrint (last_mod_str +:+ " " +:+ size_str +:+ " "
                    +:+ filename +:+ nl)) ;;
  say OutFlush.

(** Lines 153-172: one turn of the loop over the pages. *)
Definition print_page
    (fetch : World P → result listing * World P) : L unit :=
  response_data <- remote fetch ;;
  lift (check_error C response_data) ;;
  common_prefixes <- lift (getitem response_data "CommonPrefixes") ;;
  contents <- lift (getitem response_data "Contents") ;;
  for_each print_prefix common_prefixes ;;
  for_each print_content contents.

Definition list_objects (self : TaskInfo P) : L unit :=
  let (bucket, key) := find_bucket_key P (src P self) in
  if String.eqb bucket "" then
    response_data <-
      remote (list_buckets_call C (service P self) (endpoint P self)) ;;
    let header_str := rjust 19 "CreationTime" +:+ " " +:+ "Bucket" in
    let underline_str := rjust 19 "------------" +:+ " " +:+ "------" in
    say (OutWrite (nl +:+ header_str +:+ nl)) ;;
    say (OutWrite (underline_str +:+ nl)) ;;
    buckets <- lift (getitem response_data "Buckets") ;;
    for_each print_bucket buckets
  else
    pages <- lift (paginate C (service P self) (endpoint P self) bucket key) ;;
    say (OutWrite (nl +:+ "Bucket: " +:+ bucket +:+ nl)) ;;
    say (OutWrite ("Prefix: " +:+ key +:+ nl +:+ nl)) ;;
    let header_str :=
      rjust 19 "LastWriteTime" +:+ " " +:+ rjust 10 "Length" +:+ " " +:+ "Name" in
    let underline_str :=
      rjust 19 "-------------" +:+ " " +:+ rjust 10 "------" +:+ " " +:+ "----" in
    say (OutWrite (header_str +:+ nl)) ;;
    say (OutWrite (underline_str +:+ nl)) ;;
    for_each print_page pages.

End Listing.

(** ** More vocabulary *)

(** Path vocabulary: whether a string has a ['/'], and ['/'.join(l)]. *)
Fixpoint has_slash (s : string) : bool :=
  match s with
  | "" => false
  | String c rest => Ascii.eqb c "/" || has_slash rest
  end.

Fixpoint join_slash (l : list string) : string :=
  match l with
  | [] => ""
  | [a] => a
  | a :: rest => a +:+ "/" +:+ join_slash rest
  end.

(** The rows of a listing that printed, and the console lines of a row. *)
Definition bucket_line (row : string * string) : list output :=
  [OutUniPrint (row.1 +:+ " " +:+ row.2 +:+ nl); OutFlush].

Definition prefix_row (common_prefix : gmap string jval) (seg : string) : Prop :=
  ∃ prefix, common_prefix !! "Prefix" = Some (JStr prefix)
            ∧ item_m2 (split_slash prefix) = Ok seg.
Definition prefix_line (seg : string) : list output :=
  [OutUniPrint (rjust 30 "PRE" +:+ " " +:+ seg +:+ "/" +:+ nl); OutFlush].

Definition content_row (D : Dateutil) (content : gmap string jval)
    (row : string * string * string) : Prop :=
  ∃ date size key,
    content !! "LastModified" = Some date
    ∧ make_last_mod_str D date = Ok row.1.1
    ∧ content !! "Size" = Some size
    ∧ make_size_str size = row.1.2
    ∧ content !! "Key" = Some (JStr key)
    ∧ item_m1 (split_slash key) = Ok row.2.
Definition content_line (row : string * string * string) : list output :=
  [OutUniPrint (row.1.1 +:+ " " +:+ row.1.2 +:+ " " +:+ row.2 +:+ nl);
   OutFlush].


(** The rows of a listing that printed: for each item its two texts. *)
Definition bucket_row (D : Dateutil) (bucket : gmap string jval)
    (row : string * string) : Prop :=
  ∃ date, bucket !! "CreationDate" = Some date
          ∧ make_last_mod_str D date = Ok row.1
          ∧ bucket !! "Name" = Some (JStr row.2).



(** The twelve options the pipeline reads, in the order it reads them. *)
Definition option_names : list string :=
  ["acl"; "grants"; "sse"; "storage_class"; "website_redirect";
   "guess_mime_type"; "content_type"; "cache_control"; "content_disposition";
   "content_encoding"; "content_language"; "expires"].

(** The options copied as they are, with the request parameter of each. *)
Definition pass_through : list (string * string) :=
  [("acl", "acl"); ("storage_class", "storage_class");
   ("website_redirect", "website_redirect_location");
   ("content_type", "content_type"); ("cache_control", "cache_control");
   ("content_disposition", "content_disposition");
   ("content_encoding", "content_encoding");
   ("content_language", "content_language"); ("expires", "expires")].

Definition grant_keys : list string :=
  ["grant_read"; "grant_full_control"; "grant_read_acp"; "grant_write_acp"].

Definition is_utime {P} (ev : event P) : bool :=
  match ev with EvUtime _ _ _ _ => true | _ => false end.

(** [m] never removes a key from the dictionary. *)
Definition keeps_keys {E A} (m : SE (gmap string (pval E)) A) : Prop :=
  ∀ p r p' k, m p = (r, p') → is_Some (p !! k) → is_Some (p' !! k).

(** ** More sample tasks *)
Module MoreSamples.

(** A task built without parameters. *)
Definition bare : FileInfo Mem.platform :=
  FileInfo_init Mem.platform Sample.local_task "bkt/dir/a.json" None None None
    (Some "s3") None.

(** Options with a redirect, a storage class and encryption. *)
Definition meta : FileInfo Mem.platform :=
  Sample.file_info Sample.local_task "bkt/dir/a.json" "s3"
    (<["website_redirect" := OList ["/index.html"]]>
       (<["storage_class" := OList ["REDUCED_REDUNDANCY"]]>
          (<["sse" := OBool true]> (Sample.options ONone ONone false)))).

(** A download whose task has no time stamp. *)
Definition down_undated : FileInfo Mem.platform :=
  FileInfo_init Mem.platform Sample.remote_task "/home/u/new/k.txt" None None
    None (Some "local") (Some (Sample.options ONone ONone false)).

(** A [dateutil] that reads every string as the sample time stamp, already
    local. *)
Definition fixed_dates : Dateutil :=
  {| dateutil_parse := fun v =>
       match v with
       | JStr _ => Ok Sample.last_mod
       | JInt _ => Raise (AttributeError "'int' object has no attribute 'read'")
       end;
     astimezone_tzlocal := fun d => Ok d |}.

(** A console that always prints, a service with one bucket, and one page
    of objects under it. *)
Definition one_bucket : gmap string (list (gmap string jval)) :=
  {["Buckets" :=
      [ (<["Name" := JStr "bkt"]>
           {["CreationDate" := JStr "2014-03-01T12:00:00.000Z"]}
         : gmap string jval) ]]}.

Definition one_page : gmap string (list (gmap string jval)) :=
  <["Contents" :=
      [ (<["Key" := JStr "dir/k.txt"]>
           (<["Size" := JInt 2]>
              {["LastModified" := JStr "2014-03-01T12:00:00.000Z"]})
         : gmap string jval) ]]>
    {["CommonPrefixes" :=
        [ ({["Prefix" := JStr "dir/sub/"]} : gmap string jval) ]]}.

Definition console : Console Mem.platform :=
  {| dates := fixed_dates;
     check_error := fun _ => Ok tt;
     list_buckets_call := fun service endpoint w =>
       match service with
       | Some _ => (Ok one_bucket, w)
       | None => (Raise (AttributeError
                           "'NoneType' object has no attribute 'get_operation'"),
                  w)
       end;
     paginate := fun service endpoint bucket key =>
       match service with
       | Some _ => Ok [fun w => (Ok one_page, w)]
       | None => Raise (AttributeError
                          "'NoneType' object has no attribute 'get_operation'")
       end;
     stdout := fun _ w => (Ok tt, w) |}.

Definition all_buckets : TaskInfo Mem.platform :=
  TaskInfo_init Mem.platform "" (Some "s3") (Some "ls") (Some tt)
    (Some "us-west-2").

(** A common prefix without a delimiter, and an object under a directory. *)
Definition flat_prefix : gmap string jval :=
  {["Prefix" := JStr "nodirectory"]}.
Definition nested_object : gmap string jval :=
  <["Key" := JStr "dir/k.txt"]>
    (<["Size" := JInt 2]>
       {["LastModified" := JStr "2014-03-01T12:00:00.000Z"]}).

Definition l0 : lstate (P := Mem.platform) :=
  @Build_lstate Mem.platform Sample.w0 [].

End MoreSamples.

(** ** Strings *)

Example split_eq_1_ex1 : split_eq_1 "read=alice" = ["read"; "alice"].
Proof. reflexivity. Qed.
Example split_eq_1_ex2 : split_eq_1 "read=a=b" = ["read"; "a=b"].
Proof. reflexivity. Qed.
Example split_eq_1_ex3 : split_eq_1 "badformat" = ["badformat"].
Proof. reflexivity. Qed.
Example slice_1_m1_ex :
  slice_1_m1 (String "034"%char ("abc" +:+ String "034"%char "")) = "abc".
Proof. reflexivity. Qed.

Lemma split_eq_1_spec (s : string) :
  split_eq_1 s = if has_eq s then [before_eq s; after_eq s] else [s].
Proof.
  induction s as [|c rest IH]; [reflexivity|].
  cbn [split_eq_1 has_eq before_eq after_eq].
  destruct (Ascii.eqb c "=") eqn:Hc; cbn [orb]; [reflexivity|].
  rewrite IH. destruct (has_eq rest); reflexivity.
Qed.

(** The two sides and the ['='] between them make up the entry, and the
    left side has no ['=']: the cut is at the first one. *)
Lemma before_after_eq (s : string) :
  has_eq s = true →
  s = before_eq s +:+ "=" +:+ after_eq s ∧ has_eq (before_eq s) = false.
Proof.
  induction s as [|c rest IH]; cbn [has_eq before_eq after_eq]; [done|].
  destruct (Ascii.eqb c "=") eqn:Hc; cbn [orb].
  - intros _. apply Ascii.eqb_eq in Hc. subst c. done.
  - intros H. destruct (IH H) as [IH1 IH2]. split.
    + change (String c rest
              = String c (before_eq rest +:+ "=" +:+ after_eq rest)).
      congruence.
    + cbn [has_eq]. rewrite Hc. exact IH2.
Qed.

Lemma split_of_concat (perm principal : string) :
  has_eq perm = false →
  split_eq_1 (perm +:+ "=" +:+ principal) = [perm; principal].
Proof.
  induction perm as [|c rest IH]; cbn [has_eq]; [reflexivity|].
  intros H. apply orb_false_iff in H as [Hc Hr].
  change (split_eq_1 (String c (rest +:+ "=" +:+ principal))
          = [String c rest; principal]).
  cbn [split_eq_1]. rewrite Hc, (IH Hr). reflexivity.
Qed.

(** ** Time stamps *)

(** A whole number of seconds is its own integer part, and the tuple handed
    to [time.mktime] does not depend on the microseconds. *)
Lemma py_int_inject_Z (z : Z) : py_int (inject_Z z) = z.
Proof. unfold py_int, inject_Z. cbn [Qnum Qden]. apply Z.quot_1_r. Qed.

Lemma timetuple_whole_seconds (d : datetime) :
  timetuple (whole_seconds d) = timetuple d.
Proof. reflexivity. Qed.

Example py_int_truncates : py_int (7 # 2) = 3 ∧ py_int (-7 # 2) = -3.
Proof. split; reflexivity. Qed.

(** Membership of a literal key in a literal list of keys, by evaluation. *)
Ltac decide_key := by (apply (bool_decide_unpack _); vm_compute).

(** ** Sequencing *)

Lemma bind_ok {S A B} (m : SE S A) (k : A → SE S B) s a s1 :
  m s = (Ok a, s1) → bind m k s = k a s1.
Proof. intros H. unfold bind. by rewrite H. Qed.

Lemma bind_raise {S A B} (m : SE S A) (k : A → SE S B) s e s1 :
  m s = (Raise e, s1) → bind m k s = (Raise e, s1).
Proof. intros H. unfold bind. by rewrite H. Qed.

Lemma bind_inv_ok {S A B} (m : SE S A) (k : A → SE S B) s b s' :
  bind m k s = (Ok b, s') →
  ∃ a s1, m s = (Ok a, s1) ∧ k a s1 = (Ok b, s').
Proof.
  unfold bind. destruct (m s) as [[a|e] s1]; [eauto | discriminate].
Qed.

Lemma lift_inv_ok {S A} (r : result A) (s : S) a s' :
  lift r s = (Ok a, s') → r = Ok a ∧ s' = s.
Proof. unfold lift. by intros [= -> ->]. Qed.

(** ** Traces *)

Section Traces.
Context {P : Platform}.
Implicit Types Q : event P → bool.

Lemma emits_weaken {A} Q Q' (m : SE (state P) A) :
  (∀ ev, Q ev = true → Q' ev = true) → emits Q m → emits Q' m.
Proof.
  intros HQ Hm s r s' H. destruct (Hm s r s' H) as (evs & Ht & Hall).
  exists evs. split; [done|].
  rewrite forallb_forall in *. auto.
Qed.

Lemma emits_ret {A} Q (a : A) : emits Q (ret a).
Proof.
  intros s r s' [= <- <-]. exists []. by rewrite app_nil_r.
Qed.

Lemma emits_raise {A} Q e : emits Q (raise (A := A) e).
Proof.
  intros s r s' [= <- <-]. exists []. by rewrite app_nil_r.
Qed.

Lemma emits_lift {A} Q (x : result A) : emits Q (lift x).
Proof.
  intros s r s' [= <- <-]. exists []. by rewrite app_nil_r.
Qed.

Lemma emits_bind {A B} Q (m : SE (state P) A) (k : A → SE (state P) B) :
  emits Q m → (∀ a, emits Q (k a)) → emits Q (bind m k).
Proof.
  intros Hm Hk s r s' H. unfold bind in H.
  destruct (m s) as [[a|e] s1] eqn:Em.
  - destruct (Hm _ _ _ Em) as (evs1 & Ht1 & Hq1).
    destruct (Hk a _ _ _ H) as (evs2 & Ht2 & Hq2).
    exists (evs1 ++ evs2). rewrite Ht2, Ht1, app_assoc. split; [done|].
    rewrite forallb_app, Hq1, Hq2. done.
  - injection H as <- <-. eauto.
Qed.

Lemma emits_syscall {A} Q ev (h : World P → result A * World P) :
  Q ev = true → emits Q (syscall P ev h).
Proof.
  intros HQ s r s' H. unfold syscall in H.
  destruct (h (world P s)) as [r0 w]. injection H as <- <-.
  exists [ev]. cbn. by rewrite HQ.
Qed.

Lemma emits_try_except {A} Q (m : SE (state P) A) h :
  emits Q m → (∀ e, emits Q (h e)) → emits Q (try_except m h).
Proof.
  intros Hm Hh s r s' H. unfold try_except in H.
  destruct (m s) as [[a|e] s1] eqn:Em.
  - injection H as <- <-. eauto.
  - destruct (Hm _ _ _ Em) as (evs1 & Ht1 & Hq1).
    destruct (Hh e _ _ _ H) as (evs2 & Ht2 & Hq2).
    exists (evs1 ++ evs2). rewrite Ht2, Ht1, app_assoc. split; [done|].
    rewrite forallb_app, Hq1, Hq2. done.
Qed.

Lemma emits_with_open {A} Q filename mode (body : SE (state P) A) :
  Q (EvOpen P filename mode) = true → Q (EvClose P filename) = true →
  emits Q body → emits Q (with_open P filename mode body).
Proof.
  intros Ho Hc Hb. unfold with_open, open_file.
  apply emits_bind; [by apply emits_syscall|]. intros _ s r s' H.
  destruct (body s) as [rb s1] eqn:Eb.
  destruct (Hb _ _ _ Eb) as (evs1 & Ht1 & Hq1).
  assert (Hcl : emits Q (file_close P filename))
    by (by apply emits_syscall).
  destruct (file_close P filename s1) as [rc s2] eqn:Ec.
  destruct (Hcl _ _ _ Ec) as (evs2 & Ht2 & Hq2).
  exists (evs1 ++ evs2). split.
  - destruct rc; injection H as <- <-; by rewrite Ht2, Ht1, app_assoc.
  - rewrite forallb_app, Hq1, Hq2. done.
Qed.

Lemma emits_on_params Q (m : SE (gmap string (pval (Endpoint P))) unit) p :
  emits Q (on_params P m p).
Proof.
  intros s r s' H. unfold on_params in H.
  destruct (m p) as [[[]|e] p']; injection H as <- <-;
    exists []; by rewrite app_nil_r.
Qed.

Lemma emits_check_etag Q etag data :
  emits Q (check_etag P etag data).
Proof.
  unfold check_etag. destruct (String.eqb _ _);
    [apply emits_ret | apply emits_raise].
Qed.

End Traces.


(** ** The option pipeline *)

Section Pipeline.
Context {P : Platform}.
Abbreviation params := (gmap string (pval (Endpoint P))).
Implicit Types p : params.

Lemma touches_weaken {A} keys keys' (m : SE params A) :
  keys ⊆ keys' → touches keys m → touches keys' m.
Proof. intros Hsub Hm p r p' k H Hk. eapply Hm; [done|]. set_solver. Qed.

Lemma touches_ret {A} keys (a : A) : touches (E := Endpoint P) keys (ret a).
Proof. by intros p r p' k [= <- <-] _. Qed.

Lemma touches_raise {A} keys e :
  touches (E := Endpoint P) keys (raise (A := A) e).
Proof. by intros p r p' k [= <- <-] _. Qed.

Lemma touches_lift {A} keys (x : result A) :
  touches (E := Endpoint P) keys (lift x).
Proof. by intros p r p' k [= <- <-] _. Qed.

Lemma touches_bind {A B} keys (m : SE params A) (f : A → SE params B) :
  touches keys m → (∀ a, touches keys (f a)) → touches keys (bind m f).
Proof.
  intros Hm Hf p r p' k H Hk. unfold bind in H.
  destruct (m p) as [[a|e] p1] eqn:Em.
  - rewrite (Hf a _ _ _ _ H Hk). by eapply Hm.
  - injection H as <- <-. by eapply Hm.
Qed.

Lemma touches_bind_lift {A B} keys (x : result A) (f : A → SE params B) :
  (∀ a, x = Ok a → touches keys (f a)) → touches keys (bind (lift x) f).
Proof.
  intros Hf p r p' k H Hk. unfold bind, lift in H.
  destruct x as [a|e].
  - by eapply (Hf a).
  - by injection H as <- <-.
Qed.

Lemma touches_try_except {A} keys (m : SE params A) h :
  touches keys m → (∀ e, touches keys (h e)) → touches keys (try_except m h).
Proof.
  intros Hm Hh p r p' k H Hk. unfold try_except in H.
  destruct (m p) as [[a|e] p1] eqn:Em.
  - injection H as <- <-. by eapply Hm.
  - rewrite (Hh e _ _ _ _ H Hk). by eapply Hm.
Qed.

Lemma touches_setitem keys name v :
  name ∈ keys → touches keys (setitem P name v).
Proof.
  intros Hin p r p' k [= <- <-] Hk.
  apply lookup_insert_ne. intros ->. done.
Qed.

Lemma _permission_to_param_slot (permission : string) :
  _permission_to_param permission =
    match grant_slot permission with
    | Some slot => Ok slot
    | None => Raise (ValueError
                "permission must be one of: read|readacl|writeacl|full")
    end.
Proof.
  unfold _permission_to_param, grant_slot.
  repeat (case_decide as Hd;
          [ subst permission; reflexivity
          | apply String.eqb_neq in Hd; rewrite Hd; clear Hd ]).
  reflexivity.
Qed.

Lemma grant_slot_key permission slot :
  grant_slot permission = Some slot → slot ∈ option_keys.
Proof.
  unfold grant_slot, option_keys.
  repeat case_decide; intros [= <-]; set_solver.
Qed.

Lemma set_first_touches keys name v :
  name ∈ keys → touches keys (set_first P name v).
Proof.
  intros Hin. unfold set_first.
  apply touches_bind; [apply touches_lift|].
  intros x. by apply touches_setitem.
Qed.

Lemma if_option_touches keys self opt body :
  (∀ v, touches keys (body v)) → touches keys (if_option P self opt body).
Proof.
  intros Hb. unfold if_option.
  apply touches_bind; [apply touches_lift|].
  intros v. destruct (truthy v); [apply Hb | apply touches_ret].
Qed.

Lemma grant_step_touches grant : touches option_keys (grant_step P grant).
Proof.
  unfold grant_step.
  apply touches_bind.
  - apply touches_try_except; [apply touches_lift|].
    intros []; apply touches_raise.
  - intros pg. apply touches_bind_lift. intros name Hname.
    apply touches_setitem. rewrite _permission_to_param_slot in Hname.
    destruct (grant_slot (fst pg)) as [slot|] eqn:Hs; [|discriminate].
    injection Hname as <-. by eapply grant_slot_key.
Qed.

Lemma grants_loop_touches grants : touches option_keys (grants_loop P grants).
Proof.
  induction grants as [|g rest IH]; cbn [grants_loop]; [apply touches_ret|].
  apply touches_bind; [apply grant_step_touches | intros _; exact IH].
Qed.

Lemma _inject_content_type_touches filename :
  touches option_keys (_inject_content_type P filename).
Proof.
  unfold _inject_content_type. destruct (guess_content_type P filename).
  - apply touches_setitem. unfold option_keys. set_solver.
  - apply touches_ret.
Qed.

Lemma _handle_object_params_touches self :
  touches option_keys (_handle_object_params P self).
Proof.
  unfold _handle_object_params.
  repeat (apply touches_bind; [|intros _]);
    apply if_option_touches; intros v;
    try (apply set_first_touches; unfold option_keys; set_solver).
  - apply touches_bind; [apply touches_lift|]. intros l.
    apply grants_loop_touches.
  - apply touches_setitem. unfold option_keys. set_solver.
  - apply _inject_content_type_touches.
Qed.

End Pipeline.

(** ** Buckets *)

Section Buckets.
Context (P : Platform).

(** C9: [make_bucket] issues one CreateBucket request; it carries the
    location constraint, set to the task's region, exactly when the region
    is not 'us-east-1'. *)
Theorem make_bucket_location_constraint (self : TaskInfo P) (s : state P) :
  ∃ request r s',
    make_bucket P self s = (r, s')
    ∧ trace P s' = trace P s ++ [EvOperate P "CreateBucket" request]
    ∧ request !! "create_bucket_configuration" =
        (if decide (region P self = Some "us-east-1") then None
         else Some (PDict [("LocationConstraint", region P self)]))
    ∧ request !! "bucket" = Some (PStr (find_bucket_key P (src P self)).1)
    ∧ request !! "endpoint" = Some (pval_of_endpoint P (endpoint P self)).
Proof.
  unfold make_bucket. destruct (find_bucket_key P (src P self)) as [bucket key].
  set (p0 := <["bucket" := PStr bucket]> (<["endpoint" := _]> ∅)).
  set (p1 := if negb _ then _ else _).
  unfold bind, operate, syscall, ret.
  destruct (operate_call P (service P self) "CreateBucket" p1 (world P s))
    as [[a|e] w] eqn:Ec.
  all: eexists p1, _, _; split; [reflexivity|]; split; [reflexivity|].
  all: subst p1 p0; case_decide as Hr.
  all: try (rewrite Hr; cbn [str_eq negb]; rewrite ?String.eqb_refl; cbn [negb];
            by simplify_map_eq).
  all: assert (Hne : str_eq (region P self) "us-east-1" = false)
         by (destruct (region P self) as [x|]; cbn; [|done];
             apply String.eqb_neq; congruence).
  all: rewrite Hne; cbn [negb]; by simplify_map_eq.
Qed.

End Buckets.

(** ** Upload *)

Section Upload.
Context (P : Platform).

Lemma on_params_ok m (p p' : gmap string (pval (Endpoint P))) (s : state P) :
  m p = (Ok tt, p') → on_params P m p s = (Ok p', s).
Proof. intros H. unfold on_params. by rewrite H. Qed.

Lemma on_params_raise m (p p' : gmap string (pval (Endpoint P))) e (s : state P) :
  m p = (Raise e, p') → on_params P m p s = (Raise e, s).
Proof. intros H. unfold on_params. by rewrite H. Qed.

Lemma on_params_inv_ok m (p p' : gmap string (pval (Endpoint P))) (s s' : state P) :
  on_params P m p s = (Ok p', s') → m p = (Ok tt, p') ∧ s' = s.
Proof.
  unfold on_params. destruct (m p) as [[[]|e] p1]; [|discriminate].
  by intros [= -> ->].
Qed.

Lemma check_etag_result {S} etag data (s : S) :
  check_etag P etag data s =
    (if String.eqb etag (md5_hexdigest P data) then Ok tt else Raise MD5Error, s).
Proof. unfold check_etag. by destruct (String.eqb _ _). Qed.

Lemma operate_trace service cmd request (s : state P) r s' :
  operate P service cmd request s = (r, s') →
  trace P s' = trace P s ++ [EvOperate P cmd request].
Proof.
  unfold operate, syscall.
  destruct (operate_call P service cmd request (world P s)) as [r0 w].
  by intros [= <- <-].
Qed.

(** Success of [upload] unfolds into the success of each of its steps, the
    last being the comparison of the two checksums. *)
Lemma upload_ok_inv (self : FileInfo P) (s s' : state P) :
  upload P self s = (Ok tt, s') →
  ∃ body s1 request r,
    read_file P (src P (task P self)) s = (Ok body, s1)
    ∧ _handle_object_params P self (upload_params P self body) = (Ok tt, request)
    ∧ operate P (service P (task P self)) "PutObject" request s1 = (Ok r, s')
    ∧ retrieve_http_etag P (snd r) = Ok (md5_hexdigest P body).
Proof.
  unfold upload. intros H.
  apply bind_inv_ok in H as (body & s1 & Hread & H).
  apply bind_inv_ok in H as (request & s1' & Hp & H).
  apply on_params_inv_ok in Hp as [Hp ->].
  apply bind_inv_ok in H as (r & s2 & Hop & H).
  apply bind_inv_ok in H as (etag & s2' & Het & H).
  apply lift_inv_ok in Het as [Het ->].
  rewrite check_etag_result in H.
  destruct (String.eqb etag (md5_hexdigest P body)) eqn:Heq; [|discriminate].
  injection H as <-. apply String.eqb_eq in Heq. subst etag.
  by exists body, s1, request, r.
Qed.

(** C1: once PutObject has returned, [upload] compares the ETag of the HTTP
    response with the checksum of the bytes it read: it succeeds when they
    are equal and raises [MD5Error] when they differ; and whenever [upload]
    succeeds, the bytes were read, the call returned, and the two checksums
    are equal. *)
Theorem upload_verifies_etag (self : FileInfo P) (s : state P) :
  (∀ body s1 request r s2 etag,
     read_file P (src P (task P self)) s = (Ok body, s1) →
     _handle_object_params P self (upload_params P self body) = (Ok tt, request) →
     operate P (service P (task P self)) "PutObject" request s1 = (Ok r, s2) →
     retrieve_http_etag P (snd r) = Ok etag →
     upload P self s =
       (if String.eqb etag (md5_hexdigest P body) then Ok tt else Raise MD5Error,
        s2))
  ∧ (∀ s', upload P self s = (Ok tt, s') →
       ∃ body s1 request r,
         read_file P (src P (task P self)) s = (Ok body, s1)
         ∧ operate P (service P (task P self)) "PutObject" request s1 = (Ok r, s')
         ∧ retrieve_http_etag P (snd r) = Ok (md5_hexdigest P body)).
Proof.
  split.
  - intros body s1 request r s2 etag Hread Hp Hop Het. unfold upload.
    rewrite (bind_ok _ _ _ _ _ Hread).
    rewrite (bind_ok _ _ _ _ _ (on_params_ok _ _ _ _ Hp)).
    rewrite (bind_ok _ _ _ _ _ Hop).
    unfold bind at 1. unfold lift. rewrite Het.
    apply check_etag_result.
  - intros s' H. apply upload_ok_inv in H as (body & s1 & request & r & H).
    exists body, s1, request, r. tauto.
Qed.

(** C6: the PutObject request of [upload] has a [body] exactly when the
    bytes read are not empty; with or without it the request is issued, with
    endpoint, bucket and key. *)
Theorem upload_body_iff_nonempty (self : FileInfo P) (s s1 : state P)
    (body : bytes) (request : gmap string (pval (Endpoint P))) :
  read_file P (src P (task P self)) s = (Ok body, s1) →
  _handle_object_params P self (upload_params P self body) = (Ok tt, request) →
  (∃ r s2, upload P self s = (r, s2)
           ∧ trace P s2 = trace P s1 ++ [EvOperate P "PutObject" request])
  ∧ (is_Some (request !! "body") ↔ body ≠ [])
  ∧ (body ≠ [] →
     request !! "body" =
       Some (if python26 P then PStringIO body else PByteArray body))
  ∧ request !! "endpoint" = Some (pval_of_endpoint P (endpoint P (task P self)))
  ∧ request !! "bucket" = Some (PStr (find_bucket_key P (dest P self)).1)
  ∧ request !! "key" = Some (PStr (find_bucket_key P (dest P self)).2).
Proof.
  intros Hread Hp. split.
  - unfold upload.
    rewrite (bind_ok _ _ _ _ _ Hread).
    rewrite (bind_ok _ _ _ _ _ (on_params_ok _ _ _ _ Hp)).
    unfold bind at 1.
    destruct (operate P _ "PutObject" request s1) as [[r|e] s2] eqn:Hop.
    + pose proof (operate_trace _ _ _ _ _ _ Hop) as Ht.
      unfold bind, lift. destruct (retrieve_http_etag P (snd r)) as [etag|e].
      * rewrite check_etag_result. eauto.
      * eauto.
    + pose proof (operate_trace _ _ _ _ _ _ Hop) as Ht. eauto.
  - assert (Hkeep : ∀ k, k ∉ option_keys →
              request !! k = upload_params P self body !! k).
    { intros k Hk. by eapply (_handle_object_params_touches self). }
    assert (Hb : "body" ∉ option_keys) by decide_key.
    assert (He : "endpoint" ∉ option_keys) by decide_key.
    assert (Hu : "bucket" ∉ option_keys) by decide_key.
    assert (Hy : "key" ∉ option_keys) by decide_key.
    rewrite (Hkeep _ Hb), (Hkeep _ He), (Hkeep _ Hu), (Hkeep _ Hy).
    unfold upload_params, object_params.
    destruct (find_bucket_key P (dest P self)) as [bucket key].
    destruct body as [|b0 body]; simplify_map_eq;
      repeat split; try done; try (by eexists); try (by intros [x Hx]).
Qed.

End Upload.

(** ** Grants *)

Section Grants.
Context (P : Platform).
Implicit Types p : gmap string (pval (Endpoint P)).

Lemma grant_step_ok grant slot p :
  has_eq grant = true → grant_slot (before_eq grant) = Some slot →
  grant_step P grant p = (Ok tt, <[slot := PStr (after_eq grant)]> p).
Proof.
  intros He Hs. unfold grant_step, bind, try_except, lift.
  rewrite split_eq_1_spec, He. cbn [unpack2 fst snd].
  rewrite _permission_to_param_slot, Hs. reflexivity.
Qed.

Lemma grant_step_bad grant p :
  grant_ok grant = false →
  grant_step P grant p = (Raise (ValueError (grant_error grant)), p).
Proof.
  unfold grant_ok, grant_error, grant_step, bind, try_except, lift.
  rewrite split_eq_1_spec. destruct (has_eq grant); cbn [andb unpack2 fst snd].
  - intros Hs. apply bool_decide_eq_false in Hs.
    rewrite _permission_to_param_slot.
    destruct (grant_slot (before_eq grant)); [|reflexivity].
    exfalso. apply Hs. by eexists.
  - reflexivity.
Qed.

Lemma grant_ok_slot grant :
  grant_ok grant = true →
  has_eq grant = true ∧ ∃ slot, grant_slot (before_eq grant) = Some slot.
Proof.
  unfold grant_ok. intros [H1 H2]%andb_true_iff.
  apply bool_decide_eq_true in H2. done.
Qed.

Lemma grants_loop_ok grants p :
  forallb grant_ok grants = true →
  grants_loop P grants p = (Ok tt, foldl set_grant p grants).
Proof.
  revert p. induction grants as [|g rest IH]; intros p; [reflexivity|].
  cbn [forallb grants_loop foldl]. intros [Hg Hr]%andb_true_iff.
  destruct (grant_ok_slot g Hg) as (He & slot & Hs).
  rewrite (bind_ok _ _ _ _ _ (grant_step_ok g slot p He Hs)).
  rewrite (IH _ Hr). unfold set_grant. by rewrite Hs.
Qed.

Lemma grants_loop_bad grants g p :
  first_bad_grant grants = Some g →
  ∃ p', grants_loop P grants p = (Raise (ValueError (grant_error g)), p').
Proof.
  unfold first_bad_grant. revert p.
  induction grants as [|g0 rest IH]; intros p; [discriminate|].
  cbn [List.find grants_loop]. destruct (grant_ok g0) eqn:Hg0; cbn [negb].
  - intros Hf. destruct (grant_ok_slot g0 Hg0) as (He & slot & Hs).
    rewrite (bind_ok _ _ _ _ _ (grant_step_ok g0 slot p He Hs)). by apply IH.
  - intros [= <-]. exists p.
    by rewrite (bind_raise _ _ _ _ _ (grant_step_bad g0 p Hg0)).
Qed.

Lemma foldl_set_grant_lookup grants p p1 k :
  p1 !! k = p !! k →
  foldl set_grant p1 grants !! k = foldl set_grant p grants !! k.
Proof.
  revert p p1. induction grants as [|g rest IH]; intros p p1 H; [done|].
  cbn [foldl]. apply IH. unfold set_grant.
  destruct (grant_slot (before_eq g)) as [slot|]; [|done].
  destruct (decide (slot = k)) as [->|Hne].
  - by rewrite !lookup_insert_eq.
  - by rewrite !lookup_insert_ne.
Qed.

(** One step of the pipeline leaves the other keys alone. *)
Lemma step_set_first_other self opt name p r p' k :
  if_option P self opt (set_first P name) p = (r, p') →
  k ≠ name → p' !! k = p !! k.
Proof.
  intros H Hk.
  eapply (if_option_touches [name] self opt (set_first P name)); [|done|].
  - intros v. apply set_first_touches. by apply list_elem_of_here.
  - by intros ->%list_elem_of_singleton.
Qed.

Lemma step_setitem_other self opt name v p r p' k :
  if_option P self opt (fun _ => setitem P name v) p = (r, p') →
  k ≠ name → p' !! k = p !! k.
Proof.
  intros H Hk.
  eapply (if_option_touches [name] self opt (fun _ => setitem P name v));
    [|done|].
  - intros _. apply touches_setitem. by apply list_elem_of_here.
  - by intros ->%list_elem_of_singleton.
Qed.

Lemma step_guess_other self filename p r p' k :
  if_option P self "guess_mime_type"
    (fun _ => _inject_content_type P filename) p = (r, p') →
  k ≠ "content_type" → p' !! k = p !! k.
Proof.
  intros H Hk.
  eapply (if_option_touches ["content_type"] self "guess_mime_type"
            (fun _ => _inject_content_type P filename)); [|done|].
  - intros _. unfold _inject_content_type.
    destruct (guess_content_type P filename); [|apply touches_ret].
    apply touches_setitem. by apply list_elem_of_here.
  - by intros ->%list_elem_of_singleton.
Qed.

(** What a step does when its option is present. *)
Lemma if_option_present self opt v body p :
  parameters P self !! opt = Some v →
  if_option P self opt body p = if truthy v then body v p else (Ok tt, p).
Proof.
  intros H. unfold if_option, bind, lift, getitem. rewrite H.
  by destruct (truthy v).
Qed.

End Grants.

(** ** The pipeline as a whole *)

Section OptionPipeline.
Context (P : Platform).
Implicit Types p : gmap string (pval (Endpoint P)).

Lemma read_file_emits filename : emits is_file_event (read_file P filename).
Proof.
  unfold read_file. apply emits_with_open; [reflexivity..|].
  by apply emits_syscall.
Qed.

Lemma acl_step_ok self a p :
  parameters P self !! "acl" = Some a →
  truthy a = false ∨ (∃ x, first_item (Endpoint := Endpoint P) a = Ok x) →
  ∃ p1, if_option P self "acl" (set_first P "acl") p = (Ok tt, p1).
Proof.
  intros Hacl Ha. rewrite (if_option_present P self "acl" a _ p Hacl).
  destruct (truthy a) eqn:Ht; [|by eexists].
  destruct Ha as [?|[x Hx]]; [done|].
  unfold set_first, bind, lift. rewrite Hx. by eexists.
Qed.

Lemma grants_step_result self l p :
  parameters P self !! "grants" = Some (OList l) →
  if_option P self "grants"
    (fun v => l0 <- lift (iter_items v) ;; grants_loop P l0) p
  = grants_loop P l p.
Proof.
  intros Hg. rewrite (if_option_present P self "grants" _ _ p Hg).
  destruct l as [|g rest]; reflexivity.
Qed.

Lemma pipeline_bad_grant self a l g p :
  parameters P self !! "acl" = Some a →
  truthy a = false ∨ (∃ x, first_item (Endpoint := Endpoint P) a = Ok x) →
  parameters P self !! "grants" = Some (OList l) →
  first_bad_grant l = Some g →
  ∃ p', _handle_object_params P self p = (Raise (ValueError (grant_error g)), p').
Proof.
  intros Hacl Ha Hg Hbad. unfold _handle_object_params.
  destruct (acl_step_ok self a p Hacl Ha) as [p1 H1].
  rewrite (bind_ok _ _ _ _ _ H1).
  destruct (grants_loop_bad P l g p1 Hbad) as [p' H2].
  exists p'. apply bind_raise. by rewrite (grants_step_result self l p1 Hg).
Qed.

(** C5: with the grants option a list [l], the loop over [l] cuts each
    entry at its first ['='] and stores the principal under the slot of the
    permission (read, full, readacl, writeacl), and the slots of the finished
    request are those the loop leaves; an entry with no ['='] or with another
    permission raises [ValueError], and then [copy] and
    [create_multipart_upload] raise it with nothing done, and [upload] raises
    without any remote call. *)
Theorem grants_validated_before_remote_call (self : FileInfo P) (a : oval)
    (l : list string) :
  parameters P self !! "acl" = Some a →
  truthy a = false ∨ (∃ x, first_item (Endpoint := Endpoint P) a = Ok x) →
  parameters P self !! "grants" = Some (OList l) →
  (forallb grant_ok l = true →
     (∀ p, grants_loop P l p = (Ok tt, foldl set_grant p l))
     ∧ (∀ p p' permission slot,
          _handle_object_params P self p = (Ok tt, p') →
          grant_slot permission = Some slot →
          p' !! slot = foldl set_grant p l !! slot))
  ∧ (∀ g, first_bad_grant l = Some g →
       (∀ p, ∃ p', _handle_object_params P self p
                   = (Raise (ValueError (grant_error g)), p'))
       ∧ (∀ s, copy P self s = (Raise (ValueError (grant_error g)), s))
       ∧ (∀ s, create_multipart_upload P self s
               = (Raise (ValueError (grant_error g)), s))
       ∧ (∀ s, ∃ e s' evs,
            upload P self s = (Raise e, s')
            ∧ trace P s' = trace P s ++ evs
            ∧ forallb is_local evs = true)).
Proof.
  intros Hacl Ha Hg. split.
  - intros Hok. split; [intros p; by apply grants_loop_ok|].
    intros p p' permission slot H Hslot.
    unfold _handle_object_params in H.
    apply bind_inv_ok in H as ([] & p1 & H1 & H).
    apply bind_inv_ok in H as ([] & p2 & H2 & H).
    rewrite (grants_step_result self l p1 Hg) in H2.
    rewrite (grants_loop_ok P l p1 Hok) in H2. injection H2 as <-.
    apply bind_inv_ok in H as ([] & p3 & H3 & H).
    apply bind_inv_ok in H as ([] & p4 & H4 & H).
    apply bind_inv_ok in H as ([] & p5 & H5 & H).
    apply bind_inv_ok in H as ([] & p6 & H6 & H).
    apply bind_inv_ok in H as ([] & p7 & H7 & H).
    apply bind_inv_ok in H as ([] & p8 & H8 & H).
    apply bind_inv_ok in H as ([] & p9 & H9 & H).
    apply bind_inv_ok in H as ([] & p10 & H10 & H).
    apply bind_inv_ok in H as ([] & p11 & H11 & H).
    assert (Hne : ∀ k, k ∈ ["acl"; "server_side_encryption"; "storage_class";
                           "website_redirect_location"; "content_type";
                           "cache_control"; "content_disposition";
                           "content_encoding"; "content_language"; "expires"] →
                       slot ≠ k).
    { intros k Hk ->. unfold grant_slot in Hslot.
      repeat case_decide; simplify_eq; revert Hk; decide_key. }
    rewrite (step_set_first_other P _ _ _ _ _ _ slot H) by (apply Hne; decide_key).
    rewrite (step_set_first_other P _ _ _ _ _ _ slot H11) by (apply Hne; decide_key).
    rewrite (step_set_first_other P _ _ _ _ _ _ slot H10) by (apply Hne; decide_key).
    rewrite (step_set_first_other P _ _ _ _ _ _ slot H9) by (apply Hne; decide_key).
    rewrite (step_set_first_other P _ _ _ _ _ _ slot H8) by (apply Hne; decide_key).
    rewrite (step_set_first_other P _ _ _ _ _ _ slot H7) by (apply Hne; decide_key).
    rewrite (step_guess_other P _ _ _ _ _ slot H6) by (apply Hne; decide_key).
    rewrite (step_set_first_other P _ _ _ _ _ _ slot H5) by (apply Hne; decide_key).
    rewrite (step_set_first_other P _ _ _ _ _ _ slot H4) by (apply Hne; decide_key).
    rewrite (step_setitem_other P _ _ _ _ _ _ _ slot H3) by (apply Hne; decide_key).
    apply foldl_set_grant_lookup.
    apply (step_set_first_other P _ _ _ _ _ _ slot H1). apply Hne. decide_key.
  - intros g Hbad.
    assert (Hp : ∀ p, ∃ p', _handle_object_params P self p
                            = (Raise (ValueError (grant_error g)), p'))
      by (intros p; by eapply pipeline_bad_grant).
    split; [exact Hp|]. split; [|split].
    + intros s. unfold copy.
      destruct (Hp (copy_params P self)) as [p' Hp'].
      by rewrite (bind_raise _ _ _ _ _ (on_params_raise P _ _ _ _ s Hp')).
    + intros s. unfold create_multipart_upload.
      destruct (find_bucket_key P (dest P self)) as [bucket key].
      destruct (Hp (object_params P self bucket key)) as [p' Hp'].
      by rewrite (bind_raise _ _ _ _ _ (on_params_raise P _ _ _ _ s Hp')).
    + intros s. unfold upload.
      destruct (read_file P (src P (task P self)) s) as [[body|e] s1] eqn:Hread.
      * destruct (emits_weaken is_file_event is_local _
                    ltac:(by intros []) (read_file_emits _) _ _ _ Hread)
          as (evs & Ht & Hq).
        destruct (Hp (upload_params P self body)) as [p' Hp'].
        exists (ValueError (grant_error g)), s1, evs.
        rewrite (bind_ok _ _ _ _ _ Hread).
        by rewrite (bind_raise _ _ _ _ _ (on_params_raise P _ _ _ _ s1 Hp')).
      * destruct (emits_weaken is_file_event is_local _
                    ltac:(by intros []) (read_file_emits _) _ _ _ Hread)
          as (evs & Ht & Hq).
        exists e, s1, evs. by rewrite (bind_raise _ _ _ _ _ Hread).
Qed.

(** The pipeline, when it succeeds, went through the dictionary after the
    guessing step and the one after the explicit content type; the five
    later steps leave [content_type] alone. *)
Lemma pipeline_content_type_steps self p p' :
  _handle_object_params P self p = (Ok tt, p') →
  ∃ p5 p6 p7,
    if_option P self "guess_mime_type"
      (fun _ => _inject_content_type P (src P (task P self))) p5 = (Ok tt, p6)
    ∧ if_option P self "content_type" (set_first P "content_type") p6
      = (Ok tt, p7)
    ∧ p' !! "content_type" = p7 !! "content_type".
Proof.
  intros H. unfold _handle_object_params in H.
  apply bind_inv_ok in H as ([] & p1 & H1 & H).
  apply bind_inv_ok in H as ([] & p2 & H2 & H).
  apply bind_inv_ok in H as ([] & p3 & H3 & H).
  apply bind_inv_ok in H as ([] & p4 & H4 & H).
  apply bind_inv_ok in H as ([] & p5 & H5 & H).
  apply bind_inv_ok in H as ([] & p6 & H6 & H).
  apply bind_inv_ok in H as ([] & p7 & H7 & H).
  apply bind_inv_ok in H as ([] & p8 & H8 & H).
  apply bind_inv_ok in H as ([] & p9 & H9 & H).
  apply bind_inv_ok in H as ([] & p10 & H10 & H).
  apply bind_inv_ok in H as ([] & p11 & H11 & H).
  exists p5, p6, p7. split; [done|]. split; [done|].
  rewrite (step_set_first_other P _ _ _ _ _ _ "content_type" H) by done.
  rewrite (step_set_first_other P _ _ _ _ _ _ "content_type" H11) by done.
  rewrite (step_set_first_other P _ _ _ _ _ _ "content_type" H10) by done.
  rewrite (step_set_first_other P _ _ _ _ _ _ "content_type" H9) by done.
  by rewrite (step_set_first_other P _ _ _ _ _ _ "content_type" H8).
Qed.

(** C4: with [guess_mime_type] truthy, a finished pipeline first stored the
    type guessed from the source path, when there is one, and then applied
    the explicit [content_type]: the first element of an explicit list is
    what the request carries, whatever was guessed; with no explicit
    [content_type] the guessed type stays. *)
Theorem explicit_content_type_wins (self : FileInfo P) (g : oval) p p' :
  _handle_object_params P self p = (Ok tt, p') →
  parameters P self !! "guess_mime_type" = Some g →
  truthy g = true →
  (∀ t, guess_content_type P (src P (task P self)) = Some t →
     ∃ p5 p6 p7,
       if_option P self "guess_mime_type"
         (fun _ => _inject_content_type P (src P (task P self))) p5 = (Ok tt, p6)
       ∧ p6 !! "content_type" = Some (PStr t)
       ∧ if_option P self "content_type" (set_first P "content_type") p6
         = (Ok tt, p7)
       ∧ p' !! "content_type" = p7 !! "content_type")
  ∧ (∀ c rest,
       parameters P self !! "content_type" = Some (OList (c :: rest)) →
       p' !! "content_type" = Some (PStr c))
  ∧ (∀ v t,
       parameters P self !! "content_type" = Some v → truthy v = false →
       guess_content_type P (src P (task P self)) = Some t →
       p' !! "content_type" = Some (PStr t)).
Proof.
  intros H Hg Hgt.
  destruct (pipeline_content_type_steps self p p' H)
    as (p5 & p6 & p7 & H6 & H7 & Hlast).
  assert (Hguess : ∀ t, guess_content_type P (src P (task P self)) = Some t →
                        p6 !! "content_type" = Some (PStr t)).
  { intros t Ht. rewrite (if_option_present P self _ g _ p5 Hg), Hgt in H6.
    unfold _inject_content_type in H6. rewrite Ht in H6.
    injection H6 as <-. by rewrite lookup_insert_eq. }
  split; [|split].
  - intros t Ht. exists p5, p6, p7. auto.
  - intros c rest Hc. rewrite Hlast.
    rewrite (if_option_present P self _ _ _ p6 Hc) in H7.
    injection H7 as <-. by rewrite lookup_insert_eq.
  - intros v t Hv Hvf Ht. rewrite Hlast.
    rewrite (if_option_present P self _ _ _ p6 Hv), Hvf in H7.
    injection H7 as <-. by apply Hguess.
Qed.

End OptionPipeline.

(** ** Download: [save_file] *)

Section SaveFile.
Context (P : Platform).

Lemma syscall_trace {A} ev (h : World P → result A * World P) (s : state P) r s' :
  syscall P ev h s = (r, s') → trace P s' = trace P s ++ [ev].
Proof.
  unfold syscall. destruct (h (world P s)) as [r0 w]. by intros [= <- <-].
Qed.

Lemma with_open_ok_inv {A} filename mode (body : SE (state P) A) s a s' :
  with_open P filename mode body s = (Ok a, s') →
  ∃ s1 s2, open_file P filename mode s = (Ok tt, s1)
           ∧ body s1 = (Ok a, s2)
           ∧ file_close P filename s2 = (Ok tt, s').
Proof.
  unfold with_open. intros H.
  apply bind_inv_ok in H as ([] & s1 & Ho & H).
  destruct (body s1) as [rb s2] eqn:Hb.
  destruct (file_close P filename s2) as [[[]|e] s3] eqn:Hc; [|discriminate].
  injection H as -> ->. by exists s1, s2.
Qed.

(** The head of [save_file]: the payload and the ETag are taken out of the
    response and compared before anything else happens. *)
Lemma save_file_checked filename (response_data : gmap string rval)
    last_update data tag (s : state P) :
  response_data !! "Body" = Some (RBody data) →
  response_data !! "ETag" = Some (RStr tag) →
  save_file P filename response_data last_update s =
    if String.eqb (slice_1_m1 tag) (md5_hexdigest P data)
    then (try_except
            (exists_d <- path_exists P (os_path_dirname P filename) ;;
             if negb exists_d then makedirs P (os_path_dirname P filename)
             else ret tt)
            (fun _ => ret tt) ;;
          save_file_write P filename data last_update) s
    else (Raise MD5Error, s).
Proof.
  intros Hb He. unfold save_file, bind at 1 2 3 4 5, lift, getitem.
  rewrite Hb, He. cbn [body_read etag_slice]. unfold check_etag.
  by destruct (String.eqb _ _).
Qed.

(** C10: when the ETag of the response, its quotes removed, is not the
    checksum of the payload, [save_file] raises [MD5Error] and the state is
    the one it started from: no event was issued, so the destination was
    neither opened nor written and no time was set. *)
Theorem save_file_bad_etag_untouched filename
    (response_data : gmap string rval) last_update data tag (s : state P) :
  response_data !! "Body" = Some (RBody data) →
  response_data !! "ETag" = Some (RStr tag) →
  slice_1_m1 tag ≠ md5_hexdigest P data →
  save_file P filename response_data last_update s = (Raise MD5Error, s).
Proof.
  intros Hb He Hne. rewrite (save_file_checked _ _ _ data tag s Hb He).
  apply String.eqb_neq in Hne. by rewrite Hne.
Qed.

Lemma directory_step_emits d :
  emits (P := P) is_dir_event
    (try_except
       (exists_d <- path_exists P d ;;
        if negb exists_d then makedirs P d else ret tt)
       (fun _ => ret tt)).
Proof.
  apply emits_try_except; [|intros _; apply emits_ret].
  apply emits_bind; [by apply emits_syscall|].
  intros []; cbn [negb]; [apply emits_ret | by apply emits_syscall].
Qed.

Lemma directory_step_ok d (s : state P) :
  ∃ s1, try_except
          (exists_d <- path_exists P d ;;
           if negb exists_d then makedirs P d else ret tt)
          (fun _ => ret tt) s = (Ok tt, s1).
Proof.
  unfold try_except.
  destruct ((exists_d <- path_exists P d ;;
             if negb exists_d then makedirs P d else ret tt) s)
    as [[[]|e] s1]; by eexists.
Qed.

Lemma save_file_write_ok_inv filename data last_update (s s' : state P) :
  save_file_write P filename data last_update s = (Ok tt, s') →
  ∃ d t, last_update = Some d
         ∧ time_mktime P (timetuple d) = Ok t
         ∧ trace P s' = trace P s ++
             [EvOpen P filename "wb"; EvWrite P filename data;
              EvClose P filename;
              EvUtime P filename (py_int t) (py_int t)].
Proof.
  unfold save_file_write. intros H.
  apply bind_inv_ok in H as ([] & s3 & Hw & H).
  apply with_open_ok_inv in Hw as (s1 & s2 & Ho & Hw & Hc).
  apply bind_inv_ok in H as (tuple & s3' & Ht & H).
  apply lift_inv_ok in Ht as [Ht ->].
  apply bind_inv_ok in H as (t & s3' & Hm & H).
  apply lift_inv_ok in Hm as [Hm ->].
  destruct last_update as [d|]; [|discriminate]. injection Ht as <-.
  exists d, t. split; [done|]. split; [done|].
  rewrite (syscall_trace _ _ _ _ _ H), (syscall_trace _ _ _ _ _ Hc),
    (syscall_trace _ _ _ _ _ Hw), (syscall_trace _ _ _ _ _ Ho).
  by rewrite <- !app_assoc.
Qed.

(** C8: a [save_file] that succeeds has, after looking at the directory,
    opened the destination, written the whole payload, closed the file and
    only then called [utime], with the access time and the modification time
    both [int(time.mktime(last_update.timetuple()))]: the time stamp without
    its microseconds. *)
Theorem save_file_sets_times filename (response_data : gmap string rval)
    last_update (s s' : state P) :
  save_file P filename response_data last_update s = (Ok tt, s') →
  ∃ data d t pre,
    response_data !! "Body" = Some (RBody data)
    ∧ last_update = Some d
    ∧ time_mktime P (timetuple d) = Ok t
    ∧ timetuple d = timetuple (whole_seconds d)
    ∧ forallb is_dir_event pre = true
    ∧ trace P s' = trace P s ++ pre ++
        [EvOpen P filename "wb"; EvWrite P filename data;
         EvClose P filename;
         EvUtime P filename (py_int t) (py_int t)].
Proof.
  intros H. pose proof H as H0. unfold save_file in H.
  apply bind_inv_ok in H as (body & s1 & Hb & H).
  apply lift_inv_ok in Hb as [Hb ->].
  apply bind_inv_ok in H as (data & s1 & Hd & H).
  apply lift_inv_ok in Hd as [Hd ->].
  apply bind_inv_ok in H as (etag_v & s1 & He & H).
  apply lift_inv_ok in He as [He ->].
  apply bind_inv_ok in H as (etag & s1 & Hs & H).
  apply lift_inv_ok in Hs as [Hs ->].
  apply bind_inv_ok in H as ([] & s1 & Hc & H).
  unfold check_etag in Hc.
  destruct (String.eqb etag (md5_hexdigest P data)); [|discriminate].
  injection Hc as <-.
  apply bind_inv_ok in H as ([] & s2 & Hdir & H).
  destruct (directory_step_emits _ _ _ _ Hdir) as (pre & Hpre & Hq).
  apply save_file_write_ok_inv in H as (d & t & Hlu & Hm & Ht).
  unfold getitem in Hb. destruct (response_data !! "Body") as [b|] eqn:Hbody;
    [|discriminate]. injection Hb as ->.
  destruct body as [?|payload]; [discriminate|]. injection Hd as ->.
  exists data, d, t, pre. repeat split; try done.
  by rewrite Ht, Hpre, <- app_assoc.
Qed.

(** C7, as the code has it: whatever [os.makedirs] raises, the error is
    dropped there; [save_file] goes on to lines 64-68 from the state the
    failed call left, and its outcome is theirs. *)
Theorem save_file_drops_makedirs_error filename
    (response_data : gmap string rval) last_update data tag (s : state P)
    (e : exn) (w1 : World P) :
  response_data !! "Body" = Some (RBody data) →
  response_data !! "ETag" = Some (RStr tag) →
  slice_1_m1 tag = md5_hexdigest P data →
  os_path_exists P (os_path_dirname P filename) (world P s) = false →
  os_makedirs P (os_path_dirname P filename) (world P s) = (Raise e, w1) →
  save_file P filename response_data last_update s =
    save_file_write P filename data last_update
      {| world := w1;
         trace := trace P s ++ [EvExists P (os_path_dirname P filename);
                                EvMakedirs P (os_path_dirname P filename)] |}.
Proof.
  intros Hb He Heq Hex Hmk.
  rewrite (save_file_checked _ _ _ data tag s Hb He).
  apply String.eqb_eq in Heq. rewrite Heq.
  unfold bind at 1, try_except, bind at 1, path_exists, makedirs, syscall.
  cbn [world trace]. rewrite Hex. cbn [negb world trace]. rewrite Hmk.
  unfold ret. by rewrite <- app_assoc.
Qed.

End SaveFile.

(** ** Move *)

Section Move.
Context (P : Platform).

Lemma str_eq_true v x : str_eq v x = true ↔ v = Some x.
Proof.
  destruct v as [y|]; cbn; [|done].
  rewrite String.eqb_eq. split; [by intros -> | by intros [= ->]].
Qed.

Lemma upload_keeps_source self : emits keeps_source (upload P self).
Proof.
  unfold upload. apply emits_bind.
  - apply (emits_weaken is_file_event); [by intros []|].
    apply read_file_emits.
  - intros body. apply emits_bind; [apply emits_on_params|]. intros request.
    apply emits_bind; [by apply emits_syscall|]. intros r.
    apply emits_bind; [apply emits_lift|]. intros etag.
    apply emits_check_etag.
Qed.

Lemma copy_keeps_source self : emits keeps_source (copy P self).
Proof.
  unfold copy. apply emits_bind; [apply emits_on_params|]. intros request.
  apply emits_bind; [by apply emits_syscall|]. intros r. apply emits_ret.
Qed.

Lemma save_file_keeps_source filename response_data last_update :
  emits keeps_source (save_file P filename response_data last_update).
Proof.
  unfold save_file.
  apply emits_bind; [apply emits_lift|]. intros body.
  apply emits_bind; [apply emits_lift|]. intros data.
  apply emits_bind; [apply emits_lift|]. intros etag_v.
  apply emits_bind; [apply emits_lift|]. intros etag.
  apply emits_bind; [apply emits_check_etag|]. intros _.
  apply emits_bind.
  { apply (emits_weaken is_dir_event); [by intros []|].
    apply directory_step_emits. }
  intros _. unfold save_file_write.
  apply emits_bind.
  { apply emits_with_open; [reflexivity..|]. by apply emits_syscall. }
  intros _. apply emits_bind; [apply emits_lift|]. intros tuple.
  apply emits_bind; [apply emits_lift|]. intros t.
  by apply emits_syscall.
Qed.

Lemma download_keeps_source self : emits keeps_source (download P self).
Proof.
  unfold download. destruct (find_bucket_key P (src P (task P self))) as [b k].
  apply emits_bind; [by apply emits_syscall|]. intros r.
  apply save_file_keeps_source.
Qed.

Lemma move_transfer_keeps_source self :
  emits keeps_source (move_transfer P self).
Proof.
  unfold move_transfer.
  destruct (_ && _); [apply upload_keeps_source|].
  destruct (_ && _); [apply copy_keeps_source|].
  destruct (_ && _); [apply download_keeps_source|].
  apply emits_raise.
Qed.

(** C2: whatever the two kinds, when the transfer step of [move] raises,
    [move] raises the same error from the same state, and nothing it asked
    of the platform on the way is a deletion: [delete] was not called. *)
Theorem move_no_delete_after_failed_transfer (self : FileInfo P)
    (s s' : state P) (e : exn) :
  move_transfer P self s = (Raise e, s') →
  move P self s = (Raise e, s')
  ∧ ∃ evs, trace P s' = trace P s ++ evs ∧ forallb keeps_source evs = true.
Proof.
  intros H. split.
  - unfold move. by apply bind_raise.
  - by eapply move_transfer_keeps_source.
Qed.

(** C3: [move] by kinds. local to s3: [upload], then the local source is
    removed; s3 to s3: [copy], then a DeleteObject on the source; s3 to
    local: [download], then a DeleteObject on the source; any other pair,
    local to local among them: the error "Invalid path arguments for mv"
    from an untouched state. *)
Theorem move_dispatch (self : FileInfo P) (s : state P) :
  let src_kind := src_type P (task P self) in
  let dest_kind := dest_type P self in
  let delete_object : SE (state P) unit :=
    operate P (service P (task P self)) "DeleteObject"
      (object_params P self (find_bucket_key P (src P (task P self))).1
                            (find_bucket_key P (src P (task P self))).2) ;;
    ret tt in
  (src_kind = Some "local" → dest_kind = Some "s3" →
   move P self s = (upload P self ;; remove P (src P (task P self))) s)
  ∧ (src_kind = Some "s3" → dest_kind = Some "s3" →
     move P self s = (copy P self ;; delete_object) s)
  ∧ (src_kind = Some "s3" → dest_kind = Some "local" →
     move P self s = (download P self ;; delete_object) s)
  ∧ (¬ (src_kind = Some "local" ∧ dest_kind = Some "s3") →
     ¬ (src_kind = Some "s3" ∧ dest_kind = Some "s3") →
     ¬ (src_kind = Some "s3" ∧ dest_kind = Some "local") →
     move P self s = (Raise (Exception "Invalid path arguments for mv"), s))
  ∧ (src_kind = Some "local" → dest_kind = Some "local" →
     move P self s = (Raise (Exception "Invalid path arguments for mv"), s)).
Proof.
  intros src_kind dest_kind delete_object.
  assert (Hdel : str_eq src_kind "s3" = true → delete P self = delete_object).
  { intros Hs. unfold delete. fold src_kind. rewrite Hs.
    by destruct (find_bucket_key P (src P (task P self))). }
  assert (Hother :
    ¬ (src_kind = Some "local" ∧ dest_kind = Some "s3") →
    ¬ (src_kind = Some "s3" ∧ dest_kind = Some "s3") →
    ¬ (src_kind = Some "s3" ∧ dest_kind = Some "local") →
    move P self s = (Raise (Exception "Invalid path arguments for mv"), s)).
  { intros N1 N2 N3. unfold move, move_transfer. fold src_kind dest_kind.
    rewrite <- !str_eq_true, <- andb_true_iff in N1, N2, N3.
    apply not_true_is_false in N1, N2, N3. by rewrite N1, N2, N3. }
  repeat split.
  - intros Hs Hd. unfold move, move_transfer, delete. fold src_kind dest_kind.
    rewrite Hs, Hd. reflexivity.
  - intros Hs Hd. rewrite <- Hdel by (by apply str_eq_true).
    unfold move, move_transfer. fold src_kind dest_kind.
    rewrite Hs, Hd. reflexivity.
  - intros Hs Hd. rewrite <- Hdel by (by apply str_eq_true).
    unfold move, move_transfer. fold src_kind dest_kind.
    rewrite Hs, Hd. reflexivity.
  - exact Hother.
  - intros Hs Hd. apply Hother; rewrite Hs, Hd; by intros [? ?].
Qed.

End Move.

(** ** The theorems on the sample tasks *)

Section Samples.
Import Sample.

Abbreviation MP := Mem.platform.

Lemma upload_verifies_etag_witness :
  (∃ s', upload MP up s0 = (Ok tt, s'))
  ∧ (∃ s', upload MP up s_corrupt = (Raise MD5Error, s')).
Proof.
  split.
  - destruct (upload_verifies_etag MP up s0) as [H _].
    eexists. etransitivity; [eapply H; reflexivity | reflexivity].
  - destruct (upload_verifies_etag MP up s_corrupt) as [H _].
    eexists. etransitivity; [eapply H; reflexivity | reflexivity].
Defined.

Lemma upload_body_iff_nonempty_witness :
  (∃ request,
     _handle_object_params MP up (upload_params MP up hi) = (Ok tt, request)
     ∧ request !! "body" = Some (PByteArray hi))
  ∧ (∃ request r s2,
       _handle_object_params MP up_empty (upload_params MP up_empty [])
       = (Ok tt, request)
       ∧ upload MP up_empty s0 = (r, s2)
       ∧ List.last (trace MP s2) (EvRemove MP "")
         = EvOperate MP "PutObject" request
       ∧ request !! "body" = None
       ∧ request !! "key" = Some (PStr "empty.txt")).
Proof.
  split.
  - eexists. split; [reflexivity|].
    eapply (upload_body_iff_nonempty MP up s0); [reflexivity..|done].
  - destruct (upload_body_iff_nonempty MP up_empty s0 _ [] _
                eq_refl eq_refl) as ((r & s2 & Hu & Ht) & Hb & _ & _ & _ & Hk).
    eexists _, r, s2. split; [reflexivity|]. split; [exact Hu|].
    split; [by rewrite Ht, last_last|]. split; [|exact Hk].
    apply eq_None_not_Some. intros Hs. apply Hb in Hs. exact (Hs eq_refl).
Defined.

Lemma grants_validated_before_remote_call_witness :
  grants_loop MP ["read=alice"] ∅ = (Ok tt, {["grant_read" := PStr "alice"]})
  ∧ copy MP up_bad s0
    = (Raise (ValueError "grants should be of the form permission=principal"),
       s0).
Proof.
  split.
  - destruct (grants_validated_before_remote_call MP up ONone ["read=alice"]
                eq_refl (or_introl eq_refl) eq_refl) as [H _].
    destruct (H eq_refl) as [Hloop _]. exact (Hloop ∅).
  - destruct (grants_validated_before_remote_call MP up_bad ONone
                ["read=alice"; "badformat"]
                eq_refl (or_introl eq_refl) eq_refl) as [_ H].
    destruct (H "badformat" eq_refl) as (_ & Hcopy & _). exact (Hcopy s0).
Defined.

Lemma explicit_content_type_wins_witness :
  (∃ request,
     _handle_object_params MP up (upload_params MP up hi) = (Ok tt, request)
     ∧ request !! "content_type" = Some (PStr "application/json"))
  ∧ (∃ request,
       _handle_object_params MP up_explicit (upload_params MP up_explicit hi)
       = (Ok tt, request)
       ∧ request !! "content_type" = Some (PStr "text/plain")).
Proof.
  split.
  - eexists. split; [reflexivity|].
    destruct (explicit_content_type_wins MP up (OBool true)
                (upload_params MP up hi) _ eq_refl eq_refl eq_refl)
      as (_ & _ & H).
    exact (H ONone "application/json" eq_refl eq_refl eq_refl).
  - eexists. split; [reflexivity|].
    destruct (explicit_content_type_wins MP up_explicit (OBool true)
                (upload_params MP up_explicit hi) _ eq_refl eq_refl eq_refl)
      as (_ & H & _).
    exact (H "text/plain" [] eq_refl).
Defined.

Lemma move_no_delete_after_failed_transfer_witness :
  ∃ s', move MP up s_offline = (Raise (ServiceError "PutObject"), s')
        ∧ is_Some (Mem.files (world MP s') !! "/home/u/a.json").
Proof.
  eexists. split.
  - eapply (move_no_delete_after_failed_transfer MP up s_offline). reflexivity.
  - eexists. reflexivity.
Defined.

Lemma move_dispatch_witness :
  move MP local_local s0
  = (Raise (Exception "Invalid path arguments for mv"), s0)
  ∧ ∃ s', move MP up s0 = (Ok tt, s')
          ∧ Mem.files (world MP s') !! "/home/u/a.json" = None
          ∧ Mem.store (world MP s') !! "bkt/dir/a.json" = Some hi.
Proof.
  split.
  - destruct (move_dispatch MP local_local s0) as (_ & _ & _ & _ & H).
    exact (H eq_refl eq_refl).
  - destruct (move_dispatch MP up s0) as (H & _).
    eexists. split; [|split].
    + etransitivity; [exact (H eq_refl eq_refl) | reflexivity].
    + reflexivity.
    + reflexivity.
Defined.

Lemma save_file_bad_etag_untouched_witness :
  save_file MP "/home/u/new/k.txt" response_bad (Some last_mod) s0
  = (Raise MD5Error, s0).
Proof.
  apply (save_file_bad_etag_untouched MP _ _ _ hi (Mem.quoted "xx"));
    [reflexivity | reflexivity |].
  intros H. vm_compute in H. discriminate H.
Defined.

Lemma save_file_sets_times_witness :
  let run := save_file MP "/home/u/new/k.txt" response_ok (Some last_mod) s0 in
  run.1 = Ok tt
  ∧ ∃ data d t pre,
      response_ok !! "Body" = Some (RBody data)
      ∧ Some last_mod = Some d
      ∧ time_mktime MP (timetuple d) = Ok t
      ∧ timetuple d = timetuple (whole_seconds d)
      ∧ forallb is_dir_event pre = true
      ∧ trace MP run.2 = trace MP s0 ++ pre ++
          [EvOpen MP "/home/u/new/k.txt" "wb";
           EvWrite MP "/home/u/new/k.txt" data;
           EvClose MP "/home/u/new/k.txt";
           EvUtime MP "/home/u/new/k.txt" (py_int t) (py_int t)].
Proof.
  intros run.
  assert (Hrun : run.1 = Ok tt) by (vm_compute; reflexivity).
  split; [exact Hrun|].
  apply (save_file_sets_times MP "/home/u/new/k.txt" response_ok
           (Some last_mod) s0 run.2).
  rewrite <- Hrun. apply surjective_pairing.
Defined.

(** The same run, evaluated: the events in order, and what the file system
    holds afterwards. *)
Example save_file_run :
  let run := save_file MP "/home/u/new/k.txt" response_ok (Some last_mod) s0 in
  run.1 = Ok tt
  ∧ trace MP run.2 =
      [EvExists MP "/home/u/new"; EvMakedirs MP "/home/u/new";
       EvOpen MP "/home/u/new/k.txt" "wb";
       EvWrite MP "/home/u/new/k.txt" hi;
       EvClose MP "/home/u/new/k.txt";
       EvUtime MP "/home/u/new/k.txt" 1393675200 1393675200]
  ∧ Mem.files (world MP run.2) !! "/home/u/new/k.txt"
    = Some {| Mem.content := hi; Mem.atime := 1393675200;
              Mem.mtime := 1393675200 |}.
Proof. repeat split; vm_compute; reflexivity. Qed.

Lemma save_file_drops_makedirs_error_witness :
  save_file MP "k.txt" response_ok (Some last_mod) s0
  = save_file_write MP "k.txt" hi (Some last_mod)
      (Build_state MP w0 [EvExists MP ""; EvMakedirs MP ""]).
Proof.
  exact (save_file_drops_makedirs_error MP "k.txt" response_ok (Some last_mod)
           hi (Mem.quoted "hi") s0 (OSError Mem.ENOENT) w0
           eq_refl eq_refl eq_refl eq_refl eq_refl).
Defined.

(** A destination without a directory part: [os.path.dirname] is the empty
    string, which does not exist and which [os.makedirs] cannot create
    (errno 2, not 17); the error is swallowed and the download succeeds. *)
Example save_file_relative_destination :
  let run := save_file MP "k.txt" response_ok (Some last_mod) s0 in
  os_path_dirname MP "k.txt" = ""
  ∧ os_path_exists MP "" w0 = false
  ∧ os_makedirs MP "" w0 = (Raise (OSError 2), w0)
  ∧ run.1 = Ok tt
  ∧ trace MP run.2 =
      [EvExists MP ""; EvMakedirs MP ""; EvOpen MP "k.txt" "wb";
       EvWrite MP "k.txt" hi; EvClose MP "k.txt";
       EvUtime MP "k.txt" 1393675200 1393675200]
  ∧ Mem.files (world MP run.2) !! "k.txt"
    = Some {| Mem.content := hi; Mem.atime := 1393675200;
              Mem.mtime := 1393675200 |}.
Proof. repeat split; vm_compute; reflexivity. Qed.

(** C7, as stated, fails: on the platform in memory, saving to "k.txt"
    meets a failing [os.makedirs("")] (errno 2) and still returns. *)
Lemma makedirs_failure_is_not_fatal : ¬ makedirs_failure_is_fatal MP.
Proof.
  intros Hclaim.
  destruct (Hclaim "k.txt" response_ok (Some last_mod) hi (Mem.quoted "hi")
              s0 (OSError 2) w0 eq_refl eq_refl eq_refl eq_refl eq_refl
              ltac:(discriminate))
    as (e' & s' & H).
  assert (Hok : (save_file MP "k.txt" response_ok (Some last_mod) s0).1
                = Ok tt) by (vm_compute; reflexivity).
  rewrite H in Hok. discriminate Hok.
Qed.

End Samples.

(** * Further properties *)

(** ** The option pipeline, step by step *)

Section PipelineSteps.
Context (P : Platform).
Implicit Types p : gmap string (pval (Endpoint P)).

Lemma if_option_ok_inv self opt body p p' :
  if_option P self opt body p = (Ok tt, p') →
  ∃ v, parameters P self !! opt = Some v
       ∧ (if truthy v then body v p = (Ok tt, p') else p' = p).
Proof.
  unfold if_option, bind, lift, getitem.
  destruct (parameters P self !! opt) as [v|]; [|discriminate].
  intros H. exists v. split; [done|].
  destruct (truthy v); [done|]. by injection H as <-.
Qed.

Lemma if_option_absent self opt body p :
  parameters P self !! opt = None →
  if_option P self opt body p = (Raise (KeyError opt), p).
Proof.
  intros H. unfold if_option, bind, lift, getitem. by rewrite H.
Qed.

(** A pipeline that returns went through its twelve steps. *)
Lemma pipeline_ok_steps self p p' :
  _handle_object_params P self p = (Ok tt, p') →
  ∃ p1 p2 p3 p4 p5 p6 p7 p8 p9 p10 p11,
    if_option P self "acl" (set_first P "acl") p = (Ok tt, p1)
    ∧ if_option P self "grants"
        (fun v => l <- lift (iter_items v) ;; grants_loop P l) p1 = (Ok tt, p2)
    ∧ if_option P self "sse"
        (fun _ => setitem P "server_side_encryption" (PStr "AES256")) p2
      = (Ok tt, p3)
    ∧ if_option P self "storage_class" (set_first P "storage_class") p3
      = (Ok tt, p4)
    ∧ if_option P self "website_redirect"
        (set_first P "website_redirect_location") p4 = (Ok tt, p5)
    ∧ if_option P self "guess_mime_type"
        (fun _ => _inject_content_type P (src P (task P self))) p5 = (Ok tt, p6)
    ∧ if_option P self "content_type" (set_first P "content_type") p6
      = (Ok tt, p7)
    ∧ if_option P self "cache_control" (set_first P "cache_control") p7
      = (Ok tt, p8)
    ∧ if_option P self "content_disposition"
        (set_first P "content_disposition") p8 = (Ok tt, p9)
    ∧ if_option P self "content_encoding" (set_first P "content_encoding") p9
      = (Ok tt, p10)
    ∧ if_option P self "content_language" (set_first P "content_language") p10
      = (Ok tt, p11)
    ∧ if_option P self "expires" (set_first P "expires") p11 = (Ok tt, p').
Proof.
  intros H. unfold _handle_object_params in H.
  apply bind_inv_ok in H as ([] & p1 & H1 & H).
  apply bind_inv_ok in H as ([] & p2 & H2 & H).
  apply bind_inv_ok in H as ([] & p3 & H3 & H).
  apply bind_inv_ok in H as ([] & p4 & H4 & H).
  apply bind_inv_ok in H as ([] & p5 & H5 & H).
  apply bind_inv_ok in H as ([] & p6 & H6 & H).
  apply bind_inv_ok in H as ([] & p7 & H7 & H).
  apply bind_inv_ok in H as ([] & p8 & H8 & H).
  apply bind_inv_ok in H as ([] & p9 & H9 & H).
  apply bind_inv_ok in H as ([] & p10 & H10 & H).
  apply bind_inv_ok in H as ([] & p11 & H11 & H).
  by exists p1, p2, p3, p4, p5, p6, p7, p8, p9, p10, p11.
Qed.

Lemma grant_slot_grant_key permission slot :
  grant_slot permission = Some slot → slot ∈ grant_keys.
Proof.
  unfold grant_slot, grant_keys.
  repeat case_decide; intros [= <-]; decide_key.
Qed.

Lemma grants_loop_touches_slots grants : touches grant_keys (grants_loop P grants).
Proof.
  induction grants as [|g rest IH]; cbn [grants_loop]; [apply touches_ret|].
  apply touches_bind; [|intros _; exact IH].
  unfold grant_step. apply touches_bind.
  - apply touches_try_except; [apply touches_lift|].
    intros []; apply touches_raise.
  - intros pg. apply touches_bind_lift. intros name Hname.
    apply touches_setitem. rewrite _permission_to_param_slot in Hname.
    destruct (grant_slot (fst pg)) as [slot|] eqn:Hs; [|discriminate].
    injection Hname as <-. by eapply grant_slot_grant_key.
Qed.

Lemma step_grants_other self p r p' k :
  if_option P self "grants"
    (fun v => l <- lift (iter_items v) ;; grants_loop P l) p = (r, p') →
  k ∉ grant_keys → p' !! k = p !! k.
Proof.
  intros H Hk.
  eapply (if_option_touches grant_keys self "grants"
            (fun v => l <- lift (iter_items v) ;; grants_loop P l)); [|done..].
  intros v. apply touches_bind; [apply touches_lift|].
  intros l. apply grants_loop_touches_slots.
Qed.

(** What a step that copies the first element leaves under its name. *)
Lemma step_set_first_value self opt name x rest p p' :
  parameters P self !! opt = Some (OList (x :: rest)) →
  if_option P self opt (set_first P name) p = (Ok tt, p') →
  p' !! name = Some (PStr x).
Proof.
  intros Ho H. rewrite (if_option_present P self opt _ _ p Ho) in H.
  injection H as <-. by rewrite lookup_insert_eq.
Qed.

Lemma step_falsy self opt v body p r p' :
  parameters P self !! opt = Some v → truthy v = false →
  if_option P self opt body p = (r, p') → r = Ok tt ∧ p' = p.
Proof.
  intros Ho Hv H. rewrite (if_option_present P self opt _ _ p Ho), Hv in H.
  by injection H as <- <-.
Qed.

End PipelineSteps.

(** ** The option pipeline: what a request ends up with *)

Section PipelineResults.
Context (P : Platform).
Implicit Types p : gmap string (pval (Endpoint P)).

(** Walk a lookup of key [k] back through the step that produced the
    dictionary, when that step writes another key. *)
Ltac step_back k :=
  match goal with
  | H : if_option _ _ _ (set_first _ _) _ = (_, ?b) |- context [?b !! k] =>
      rewrite (step_set_first_other P _ _ _ _ _ _ k H) by done
  | H : if_option _ _ "sse" _ _ = (_, ?b) |- context [?b !! k] =>
      rewrite (step_setitem_other P _ _ _ _ _ _ _ k H) by done
  | H : if_option _ _ "guess_mime_type" _ _ = (_, ?b) |- context [?b !! k] =>
      rewrite (step_guess_other P _ _ _ _ _ k H) by done
  | H : if_option _ _ "grants" _ _ = (_, ?b) |- context [?b !! k] =>
      rewrite (step_grants_other P _ _ _ _ k H) by decide_key
  end.

Ltac pipeline_steps H :=
  apply pipeline_ok_steps in H
    as (p1 & p2 & p3 & p4 & p5 & p6 & p7 & p8 & p9 & p10 & p11
        & H1 & H2 & H3 & H4 & H5 & H6 & H7 & H8 & H9 & H10 & H11 & H12).

(** X1: the pipeline returns only if every one of the twelve options is a
    key of [self.parameters]. *)
Theorem pipeline_needs_every_option (self : FileInfo P) p p' :
  _handle_object_params P self p = (Ok tt, p') →
  ∀ k, k ∈ option_names → is_Some (parameters P self !! k).
Proof.
  intros H k Hk. pipeline_steps H.
  unfold option_names in Hk.
  repeat (apply elem_of_cons in Hk as [->|Hk]);
    try (by apply elem_of_nil in Hk);
    match goal with
    | Hs : if_option _ _ ?o _ _ = _ |- is_Some (_ !! ?o) =>
        apply if_option_ok_inv in Hs as (v & -> & _); by eexists
    end.
Qed.

(** X2: a [FileInfo] built without parameters (or with an empty dictionary)
    has only [acl] and [sse]; the pipeline then raises [KeyError('grants')]
    with the dictionary as it was, so [copy] and [create_multipart_upload]
    fail before any call and [upload] fails right after reading the file. *)
Theorem default_parameters_lack_grants (base : TaskInfo P) dest0 compare_key0
    size0 last_update0 dest_type0 (parameters0 : option (gmap string oval)) :
  parameters0 = None ∨ parameters0 = Some ∅ →
  let self := FileInfo_init P base dest0 compare_key0 size0 last_update0
                dest_type0 parameters0 in
  (∀ p, _handle_object_params P self p = (Raise (KeyError "grants"), p))
  ∧ (∀ s, copy P self s = (Raise (KeyError "grants"), s))
  ∧ (∀ s, create_multipart_upload P self s = (Raise (KeyError "grants"), s))
  ∧ (∀ s body s1, read_file P (src P base) s = (Ok body, s1) →
                  upload P self s = (Raise (KeyError "grants"), s1)).
Proof.
  intros Hp self.
  assert (Hparams : parameters P self = <["sse" := ONone]> (<["acl" := ONone]> ∅)).
  { subst self. unfold FileInfo_init. cbn [parameters].
    destruct Hp as [-> | ->]; [done|]. by rewrite decide_True. }
  assert (Hpipe : ∀ p, _handle_object_params P self p
                       = (Raise (KeyError "grants"), p)).
  { intros p. unfold _handle_object_params.
    rewrite (bind_ok _ _ p tt p).
    - apply bind_raise. apply if_option_absent. by rewrite Hparams.
    - rewrite (if_option_present P self "acl" ONone _ p); [done|].
      by rewrite Hparams. }
  split; [exact Hpipe|]. split; [|split].
  - intros s. unfold copy.
    by rewrite (bind_raise _ _ _ _ _ (on_params_raise P _ _ _ _ s (Hpipe _))).
  - intros s. unfold create_multipart_upload.
    destruct (find_bucket_key P (dest P self)) as [bucket key].
    by rewrite (bind_raise _ _ _ _ _ (on_params_raise P _ _ _ _ s (Hpipe _))).
  - intros s body s1 Hread. unfold upload.
    change (src P (task P self)) with (src P base).
    rewrite (bind_ok _ _ _ _ _ Hread).
    by rewrite (bind_raise _ _ _ _ _ (on_params_raise P _ _ _ _ s1 (Hpipe _))).
Qed.

(** X3: when every option is present and falsy the pipeline returns the
    dictionary it was given. *)
Theorem pipeline_no_options_identity (self : FileInfo P) p :
  (∀ k, k ∈ option_names →
     ∃ v, parameters P self !! k = Some v ∧ truthy v = false) →
  _handle_object_params P self p = (Ok tt, p).
Proof.
  intros Hall.
  assert (Hstep : ∀ o body, o ∈ option_names →
                            if_option P self o body p = (Ok tt, p)).
  { intros o body Ho. destruct (Hall o Ho) as (v & Hv & Hf).
    by rewrite (if_option_present P self o v body p Hv), Hf. }
  unfold _handle_object_params.
  repeat (rewrite (bind_ok _ _ p tt p) by (apply Hstep; decide_key)).
  apply Hstep; decide_key.
Qed.

End PipelineResults.

(** Walk a lookup of key [k] back through the step that produced the
    dictionary, when that step writes another key. *)
Ltac lookup_back k :=
  match goal with
  | H : if_option _ _ _ (set_first _ _) _ = (_, ?b) |- context [?b !! k] =>
      rewrite (step_set_first_other _ _ _ _ _ _ _ k H) by done
  | H : if_option _ _ "sse" _ _ = (_, ?b) |- context [?b !! k] =>
      rewrite (step_setitem_other _ _ _ _ _ _ _ _ k H) by done
  | H : if_option _ _ "guess_mime_type" _ _ = (_, ?b) |- context [?b !! k] =>
      rewrite (step_guess_other _ _ _ _ _ _ k H) by done
  | H : if_option _ _ "grants" _ _ = (_, ?b) |- context [?b !! k] =>
      rewrite (step_grants_other _ _ _ _ _ k H) by decide_key
  end.

Section PassThrough.
Context (P : Platform).
Implicit Types p : gmap string (pval (Endpoint P)).

(** X4: for each option copied as it is, a list value puts its first element
    under the option's request parameter ([website_redirect] under
    [website_redirect_location]), and no later step changes it. *)
Theorem pass_through_first_element (self : FileInfo P) p p' opt name x rest :
  _handle_object_params P self p = (Ok tt, p') →
  (opt, name) ∈ pass_through →
  parameters P self !! opt = Some (OList (x :: rest)) →
  p' !! name = Some (PStr x).
Proof.
  intros H Hin Ho.
  apply pipeline_ok_steps in H
    as (p1 & p2 & p3 & p4 & p5 & p6 & p7 & p8 & p9 & p10 & p11
        & H1 & H2 & H3 & H4 & H5 & H6 & H7 & H8 & H9 & H10 & H11 & H12).
  unfold pass_through in Hin.
  repeat (apply elem_of_cons in Hin as [[= -> ->]|Hin]);
    try (by apply elem_of_nil in Hin);
    repeat first [ lookup_back "acl" | lookup_back "storage_class"
                 | lookup_back "website_redirect_location"
                 | lookup_back "content_type" | lookup_back "cache_control"
                 | lookup_back "content_disposition"
                 | lookup_back "content_encoding"
                 | lookup_back "content_language" | lookup_back "expires" ];
    by eapply step_set_first_value.
Qed.

(** X5: [sse], when truthy, sets [server_side_encryption] to 'AES256'
    whatever its value; when falsy the parameter stays as it came in. *)
Theorem sse_forces_aes256 (self : FileInfo P) p p' v :
  _handle_object_params P self p = (Ok tt, p') →
  parameters P self !! "sse" = Some v →
  p' !! "server_side_encryption" =
    if truthy v then Some (PStr "AES256") else p !! "server_side_encryption".
Proof.
  intros H Hv.
  apply pipeline_ok_steps in H
    as (p1 & p2 & p3 & p4 & p5 & p6 & p7 & p8 & p9 & p10 & p11
        & H1 & H2 & H3 & H4 & H5 & H6 & H7 & H8 & H9 & H10 & H11 & H12).
  repeat lookup_back "server_side_encryption".
  rewrite (if_option_present P self "sse" v _ p2 Hv) in H3.
  destruct (truthy v).
  - injection H3 as <-. by rewrite lookup_insert_eq.
  - injection H3 as <-. by repeat lookup_back "server_side_encryption".
Qed.

(** X6: an option that is present and falsy leaves its request parameter as
    it was in the dictionary the pipeline received; for [content_type] this
    holds when [guess_mime_type] is falsy too. *)
Theorem falsy_option_leaves_parameter (self : FileInfo P) p p' opt name v :
  _handle_object_params P self p = (Ok tt, p') →
  (opt, name) ∈ pass_through →
  parameters P self !! opt = Some v → truthy v = false →
  (name = "content_type" →
   ∃ g, parameters P self !! "guess_mime_type" = Some g ∧ truthy g = false) →
  p' !! name = p !! name.
Proof.
  intros H Hin Ho Hv Hguess.
  apply pipeline_ok_steps in H
    as (p1 & p2 & p3 & p4 & p5 & p6 & p7 & p8 & p9 & p10 & p11
        & H1 & H2 & H3 & H4 & H5 & H6 & H7 & H8 & H9 & H10 & H11 & H12).
  unfold pass_through in Hin.
  repeat (apply elem_of_cons in Hin as [[= -> ->]|Hin]);
    try (by apply elem_of_nil in Hin).
  all: try (destruct (Hguess eq_refl) as (g & Hg & Hgf);
            destruct (step_falsy P _ _ _ _ _ _ _ Hg Hgf H6) as [_ ->]).
  all: match goal with
       | Hs : if_option _ _ ?o (set_first _ _) _ = _,
         Hp : parameters _ _ !! ?o = Some _ |- _ =>
           destruct (step_falsy P _ _ _ _ _ _ _ Hp Hv Hs) as [_ ->]
       end.
  all: repeat first [ lookup_back "acl" | lookup_back "storage_class"
                    | lookup_back "website_redirect_location"
                    | lookup_back "content_type" | lookup_back "cache_control"
                    | lookup_back "content_disposition"
                    | lookup_back "content_encoding"
                    | lookup_back "content_language" | lookup_back "expires" ].
  all: reflexivity.
Qed.

End PassThrough.

(** ** The pipeline only adds *)

Section PipelineKeeps.
Context (P : Platform).
Abbreviation dict := (gmap string (pval (Endpoint P))).

Lemma keeps_ret {A} (a : A) : keeps_keys (E := Endpoint P) (ret a).
Proof. by intros p r p' k [= <- <-]. Qed.

Lemma keeps_raise {A} e : keeps_keys (E := Endpoint P) (raise (A := A) e).
Proof. by intros p r p' k [= <- <-]. Qed.

Lemma keeps_lift {A} (x : result A) : keeps_keys (E := Endpoint P) (lift x).
Proof. by intros p r p' k [= <- <-]. Qed.

Lemma keeps_bind {A B} (m : SE dict A) (f : A → SE dict B) :
  keeps_keys m → (∀ a, keeps_keys (f a)) → keeps_keys (bind m f).
Proof.
  intros Hm Hf p r p' k H Hk. unfold bind in H.
  destruct (m p) as [[a|e] p1] eqn:Em.
  - eapply Hf; [done|]. by eapply Hm.
  - injection H as <- <-. by eapply Hm.
Qed.

Lemma keeps_try_except {A} (m : SE dict A) h :
  keeps_keys m → (∀ e, keeps_keys (h e)) → keeps_keys (try_except m h).
Proof.
  intros Hm Hh p r p' k H Hk. unfold try_except in H.
  destruct (m p) as [[a|e] p1] eqn:Em.
  - injection H as <- <-. by eapply Hm.
  - eapply Hh; [done|]. by eapply Hm.
Qed.

Lemma keeps_setitem name v : keeps_keys (setitem P name v).
Proof.
  intros p r p' k [= <- <-] Hk.
  destruct (decide (name = k)) as [->|Hne].
  - rewrite lookup_insert_eq. by eexists.
  - by rewrite lookup_insert_ne.
Qed.

Lemma keeps_if_option self opt body :
  (∀ v, keeps_keys (body v)) → keeps_keys (if_option P self opt body).
Proof.
  intros Hb. unfold if_option.
  apply keeps_bind; [apply keeps_lift|].
  intros v. destruct (truthy v); [apply Hb | apply keeps_ret].
Qed.

Lemma keeps_set_first name v : keeps_keys (set_first P name v).
Proof.
  unfold set_first. apply keeps_bind; [apply keeps_lift|].
  intros x. apply keeps_setitem.
Qed.

Lemma keeps_grants_loop grants : keeps_keys (grants_loop P grants).
Proof.
  induction grants as [|g rest IH]; cbn [grants_loop]; [apply keeps_ret|].
  apply keeps_bind; [|intros _; exact IH].
  unfold grant_step. apply keeps_bind.
  - apply keeps_try_except; [apply keeps_lift|].
    intros []; apply keeps_raise.
  - intros pg. apply keeps_bind; [apply keeps_lift|].
    intros name. apply keeps_setitem.
Qed.

Lemma keeps_handle_object_params self :
  keeps_keys (_handle_object_params P self).
Proof.
  unfold _handle_object_params.
  repeat (apply keeps_bind; [|intros _]);
    apply keeps_if_option; intros v; try apply keeps_set_first.
  - apply keeps_bind; [apply keeps_lift|]. intros l. apply keeps_grants_loop.
  - apply keeps_setitem.
  - unfold _inject_content_type.
    destruct (guess_content_type P _); [apply keeps_setitem | apply keeps_ret].
Qed.

(** X7: whether it returns or raises, the pipeline leaves [endpoint],
    [bucket], [key], [body] and [copy_source] exactly as they were, and it
    never removes a parameter that was in the dictionary. *)
Theorem pipeline_keeps_request (self : FileInfo P) (p p' : dict) r :
  _handle_object_params P self p = (r, p') →
  (∀ k, k ∈ ["endpoint"; "bucket"; "key"; "body"; "copy_source"] →
        p' !! k = p !! k)
  ∧ (∀ k, is_Some (p !! k) → is_Some (p' !! k)).
Proof.
  intros H. split.
  - intros k Hk. eapply (_handle_object_params_touches self); [done|].
    repeat (apply elem_of_cons in Hk as [->|Hk]);
      try (by apply elem_of_nil in Hk); decide_key.
  - intros k Hk. by eapply keeps_handle_object_params.
Qed.

End PipelineKeeps.

(** ** Grants, entry by entry *)

Section GrantEntries.
Context (P : Platform).
Implicit Types p : gmap string (pval (Endpoint P)).

Lemma grant_slot_no_eq permission slot :
  grant_slot permission = Some slot → has_eq permission = false.
Proof.
  unfold grant_slot. repeat case_decide; intros [= <-]; by subst.
Qed.

(** X8: an entry is cut at its first ['='] only: for a known permission the
    whole text after it, empty or with further ['='] in it, is the value
    stored under the permission's slot. *)
Theorem grant_principal_kept_whole permission principal slot p :
  grant_slot permission = Some slot →
  grant_step P (permission +:+ "=" +:+ principal) p
  = (Ok tt, <[slot := PStr principal]> p).
Proof.
  intros Hs. unfold grant_step, bind, try_except, lift.
  rewrite (split_of_concat _ _ (grant_slot_no_eq _ _ Hs)).
  cbn [unpack2 fst snd]. by rewrite _permission_to_param_slot, Hs.
Qed.

Lemma foldl_set_grant_other grants p slot :
  Forall (fun g => grant_slot (before_eq g) ≠ Some slot) grants →
  foldl set_grant p grants !! slot = p !! slot.
Proof.
  revert p. induction grants as [|g rest IH]; intros p Hall; [done|].
  apply Forall_cons in Hall as [Hg Hrest]. cbn [foldl].
  rewrite (IH _ Hrest). unfold set_grant.
  destruct (grant_slot (before_eq g)) as [slot'|]; [|done].
  apply lookup_insert_ne. congruence.
Qed.

(** X9: when several entries name the same permission, the slot holds the
    principal of the last of them. *)
Theorem last_grant_wins (before after : list string) (g slot : string) p :
  forallb grant_ok (before ++ g :: after) = true →
  grant_slot (before_eq g) = Some slot →
  Forall (fun g' => grant_slot (before_eq g') ≠ Some slot) after →
  ∃ p', grants_loop P (before ++ g :: after) p = (Ok tt, p')
        ∧ p' !! slot = Some (PStr (after_eq g)).
Proof.
  intros Hok Hs Hafter. eexists. split; [by apply grants_loop_ok|].
  rewrite foldl_app. cbn [foldl].
  rewrite (foldl_set_grant_other after _ slot Hafter).
  unfold set_grant at 1. rewrite Hs. by rewrite lookup_insert_eq.
Qed.

End GrantEntries.

(** ** The ETag of a response *)

Lemma drop_last_app (s : string) (b : ascii) : drop_last (s +:+ String b "") = s.
Proof.
  induction s as [|c s IH]; [reflexivity|].
  change (drop_last (String c (s +:+ String b "")) = String c s).
  cbn [drop_last]. rewrite IH. by destruct s.
Qed.

(** X10: [etag[1:-1]] removes the first and the last character, whatever
    they are, and nothing else; a string of fewer than two characters gives
    the empty string. *)
Theorem slice_strips_both_ends (a b : ascii) (s : string) :
  slice_1_m1 (String a (s +:+ String b "")) = s
  ∧ slice_1_m1 "" = "" ∧ slice_1_m1 (String a "") = "".
Proof.
  repeat split. cbn [slice_1_m1]. apply drop_last_app.
Qed.

(** ** [save_file] and [read_file]: what they touch *)

Section LocalFiles.
Context (P : Platform).

Lemma bind_lift_raise {S A B} e (k : A → SE S B) (s : S) :
  bind (lift (Raise e)) k s = (Raise e, s).
Proof. reflexivity. Qed.

(** X11: [save_file] leaves the state exactly as it was unless the response
    has a [Body] that can be read, an [ETag] that is a string, and the ETag
    without its two end characters is the checksum of the body: with a key
    missing, a value of the wrong kind or a mismatch nothing is asked of the
    file system. *)
Theorem save_file_acts_only_when_checked filename
    (response_data : gmap string rval) last_update (s s' : state P) r :
  save_file P filename response_data last_update s = (r, s') →
  s' = s
  ∨ ∃ data tag,
      response_data !! "Body" = Some (RBody data)
      ∧ response_data !! "ETag" = Some (RStr tag)
      ∧ slice_1_m1 tag = md5_hexdigest P data.
Proof.
  unfold save_file, bind at 1 2 3 4 5, lift, getitem.
  destruct (response_data !! "Body") as [[?|data]|];
    cbn [body_read]; try (intros [= <- <-]; by left).
  destruct (response_data !! "ETag") as [[tag|?]|];
    cbn [etag_slice]; try (intros [= <- <-]; by left).
  unfold check_etag.
  destruct (String.eqb (slice_1_m1 tag) (md5_hexdigest P data)) eqn:Heq.
  - intros _. right. exists data, tag. apply String.eqb_eq in Heq. done.
  - intros [= <- <-]. by left.
Qed.

Lemma save_file_write_none_emits filename data :
  emits (fun ev => negb (is_utime ev))
    (save_file_write P filename data None).
Proof.
  unfold save_file_write. apply emits_bind.
  - apply emits_with_open; [reflexivity..|]. by apply emits_syscall.
  - intros _ s r s' H. rewrite bind_lift_raise in H. injection H as <- <-.
    exists []. by rewrite app_nil_r.
Qed.

(** X12: with [last_update] unset, [save_file] never succeeds and never
    calls [utime]; once the payload is written and the file closed, what it
    raises is the [AttributeError] of [None.timetuple()], the file staying
    written. *)
Theorem save_file_without_last_update filename
    (response_data : gmap string rval) (s s' : state P) r :
  save_file P filename response_data None s = (r, s') →
  (∃ e, r = Raise e)
  ∧ (∃ evs, trace P s' = trace P s ++ evs
            ∧ forallb (fun ev => negb (is_utime ev)) evs = true)
  ∧ (∀ data s1 s2,
       with_open P filename "wb" (file_write P filename data) s1 = (Ok tt, s2) →
       save_file_write P filename data None s1
       = (Raise (AttributeError
                   "'NoneType' object has no attribute 'timetuple'"), s2)).
Proof.
  intros H. split; [|split].
  - destruct r as [[]|e]; [|by eexists].
    unfold save_file in H.
    apply bind_inv_ok in H as (? & ? & _ & H).
    apply bind_inv_ok in H as (? & ? & _ & H).
    apply bind_inv_ok in H as (? & ? & _ & H).
    apply bind_inv_ok in H as (? & ? & _ & H).
    apply bind_inv_ok in H as (? & ? & _ & H).
    apply bind_inv_ok in H as (? & ? & _ & H).
    apply save_file_write_ok_inv in H as (d & t & Hd & _). discriminate Hd.
  - revert s r s' H.
    change (emits (fun ev => negb (is_utime ev))
              (save_file P filename response_data None)).
    unfold save_file.
    apply emits_bind; [apply emits_lift|]. intros body.
    apply emits_bind; [apply emits_lift|]. intros data.
    apply emits_bind; [apply emits_lift|]. intros etag_v.
    apply emits_bind; [apply emits_lift|]. intros etag.
    apply emits_bind; [apply emits_check_etag|]. intros _.
    apply emits_bind; [|intros _; apply save_file_write_none_emits].
    apply (emits_weaken is_dir_event); [by intros []|].
    apply directory_step_emits.
  - intros data s1 s2 Hw. unfold save_file_write.
    by rewrite (bind_ok _ _ _ _ _ Hw).
Qed.

(** X13: [read_file] closes what it opens. Either the open fails, and the
    error is the result; or the trace is open, read, close, also when the
    read fails, and the bytes are returned only if read and close both
    succeed. *)
Theorem read_file_closes_file filename (s s' : state P) r :
  read_file P filename s = (r, s') →
  (∃ e w, os_open P filename "rb" (world P s) = (Raise e, w)
          ∧ r = Raise e
          ∧ trace P s' = trace P s ++ [EvOpen P filename "rb"])
  ∨ (trace P s' = trace P s ++ [EvOpen P filename "rb"; EvRead P filename;
                                EvClose P filename]
     ∧ ∀ body, r = Ok body →
         ∃ s1 s2, open_file P filename "rb" s = (Ok tt, s1)
                  ∧ file_read P filename s1 = (Ok body, s2)
                  ∧ file_close P filename s2 = (Ok tt, s')).
Proof.
  unfold read_file, with_open, bind at 1. intros H.
  destruct (open_file P filename "rb" s) as [[[]|e] s1] eqn:Ho.
  - right.
    destruct (file_read P filename s1) as [rb s2] eqn:Hr.
    destruct (file_close P filename s2) as [rc s3] eqn:Hc.
    assert (Ht : trace P s3 = trace P s ++ [EvOpen P filename "rb";
                                           EvRead P filename;
                                           EvClose P filename]).
    { rewrite (syscall_trace P _ _ _ _ _ Hc), (syscall_trace P _ _ _ _ _ Hr),
        (syscall_trace P _ _ _ _ _ Ho). by rewrite <- !app_assoc. }
    destruct rc as [[]|e]; injection H as <- <-; (split; [exact Ht|]).
    + intros body ->. by exists s1, s2.
    + intros body [=].
  - left. injection H as <- <-.
    pose proof (syscall_trace P _ _ _ _ _ Ho) as Ht.
    unfold open_file, syscall in Ho.
    destruct (os_open P filename "rb" (world P s)) as [r0 w] eqn:Hos.
    injection Ho as -> _. by exists e, w.
Qed.

End LocalFiles.

(** ** The transfers, event by event *)

Section TransferEvents.
Context (P : Platform).

Lemma save_file_local filename response_data last_update :
  emits is_local (save_file P filename response_data last_update).
Proof.
  unfold save_file.
  apply emits_bind; [apply emits_lift|]. intros body.
  apply emits_bind; [apply emits_lift|]. intros data.
  apply emits_bind; [apply emits_lift|]. intros etag_v.
  apply emits_bind; [apply emits_lift|]. intros etag.
  apply emits_bind; [apply emits_check_etag|]. intros _.
  apply emits_bind.
  { apply (emits_weaken is_dir_event); [by intros []|].
    apply directory_step_emits. }
  intros _. unfold save_file_write.
  apply emits_bind.
  { apply emits_with_open; [reflexivity..|]. by apply emits_syscall. }
  intros _. apply emits_bind; [apply emits_lift|]. intros tuple.
  apply emits_bind; [apply emits_lift|]. intros t.
  by apply emits_syscall.
Qed.

Lemma delete_trace (self : FileInfo P) (s s' : state P) r :
  delete P self s = (r, s') →
  trace P s' = trace P s ++
    [if str_eq (src_type P (task P self)) "s3"
     then EvOperate P "DeleteObject"
            (object_params P self
               (find_bucket_key P (src P (task P self))).1
               (find_bucket_key P (src P (task P self))).2)
     else EvRemove P (src P (task P self))].
Proof.
  unfold delete. destruct (str_eq _ "s3").
  - destruct (find_bucket_key P (src P (task P self))) as [b k]. cbn [fst snd].
    unfold bind. intros H.
    destruct (operate P _ "DeleteObject" _ s) as [[x|e] s1] eqn:Hop.
    + injection H as <- <-. by eapply operate_trace.
    + injection H as <- <-. by eapply operate_trace.
  - apply syscall_trace.
Qed.

(** X14: the PutObject call, if [upload] gets to it, is the last thing
    [upload] asks of the platform, after file events only; a run without it
    raises. *)
Theorem upload_remote_call_is_last (self : FileInfo P) (s s' : state P) r :
  upload P self s = (r, s') →
  ∃ pre, forallb is_file_event pre = true
         ∧ ((trace P s' = trace P s ++ pre ∧ ∃ e, r = Raise e)
            ∨ ∃ request,
                trace P s' = trace P s ++ pre
                               ++ [EvOperate P "PutObject" request]).
Proof.
  unfold upload. intros H.
  destruct (read_file P (src P (task P self)) s) as [[body|e] s1] eqn:Hread;
    destruct (read_file_emits P _ _ _ _ Hread) as (pre & Ht & Hq);
    exists pre; (split; [exact Hq|]).
  - rewrite (bind_ok _ _ _ _ _ Hread) in H.
    destruct (_handle_object_params P self (upload_params P self body))
      as [[[]|e] request] eqn:Hp.
    + rewrite (bind_ok _ _ _ _ _ (on_params_ok P _ _ _ s1 Hp)) in H.
      right. exists request. unfold bind at 1 in H.
      destruct (operate P _ "PutObject" request s1) as [[x|e] s2] eqn:Hop;
        pose proof (operate_trace P _ _ _ _ _ _ Hop) as Ht2.
      * unfold bind, lift in H.
        destruct (retrieve_http_etag P x.2) as [etag|e].
        -- rewrite check_etag_result in H. injection H as _ <-.
           by rewrite Ht2, Ht, <- app_assoc.
        -- injection H as _ <-. by rewrite Ht2, Ht, <- app_assoc.
      * injection H as _ <-. by rewrite Ht2, Ht, <- app_assoc.
    + rewrite (bind_raise _ _ _ _ _ (on_params_raise P _ _ _ _ s1 Hp)) in H.
      injection H as <- <-. left. split; [done|by eexists].
  - rewrite (bind_raise _ _ _ _ _ Hread) in H. injection H as <- <-.
    left. split; [done|by eexists].
Qed.

(** X15: [download] begins with one GetObject for the bucket and key of the
    source; everything after it is local, and when the call fails nothing
    follows: the error is the result and no file is touched. *)
Theorem download_starts_with_get_object (self : FileInfo P) (s s' : state P) r :
  download P self s = (r, s') →
  let request :=
    object_params P self (find_bucket_key P (src P (task P self))).1
                         (find_bucket_key P (src P (task P self))).2 in
  ∃ post,
    trace P s' = trace P s ++ EvOperate P "GetObject" request :: post
    ∧ forallb is_local post = true
    ∧ (∀ e w, operate_call P (service P (task P self)) "GetObject" request
                (world P s) = (Raise e, w) →
              r = Raise e ∧ post = []).
Proof.
  unfold download.
  destruct (find_bucket_key P (src P (task P self))) as [b k].
  cbn [fst snd]. intros H.
  set (request := object_params P self b k) in *. unfold bind in H.
  destruct (operate P (service P (task P self)) "GetObject" request s)
    as [[x|e] s1] eqn:Hop; pose proof (operate_trace P _ _ _ _ _ _ Hop) as Ht.
  - destruct (save_file_local _ _ _ _ _ _ H) as (post & Ht2 & Hq).
    exists post. split; [by rewrite Ht2, Ht, <- app_assoc|]. split; [done|].
    intros e w Hc. unfold operate, syscall in Hop. rewrite Hc in Hop.
    discriminate Hop.
  - injection H as <- <-. exists []. split; [done|]. split; [done|].
    intros e' w Hc. unfold operate, syscall in Hop. rewrite Hc in Hop.
    by injection Hop as <- _.
Qed.

(** X16: [delete] asks exactly one thing of the platform: a DeleteObject on
    the bucket and key of the source when the source kind is 's3', and in
    every other case, an unset kind included, [os.remove] of the source
    path. *)
Theorem delete_one_event (self : FileInfo P) (s s' : state P) r :
  delete P self s = (r, s') →
  (src_type P (task P self) = Some "s3" →
   trace P s' = trace P s ++
     [EvOperate P "DeleteObject"
        (object_params P self (find_bucket_key P (src P (task P self))).1
                              (find_bucket_key P (src P (task P self))).2)])
  ∧ (src_type P (task P self) ≠ Some "s3" →
     trace P s' = trace P s ++ [EvRemove P (src P (task P self))]).
Proof.
  intros H. pose proof (delete_trace self s s' r H) as Ht. split; intros Hk.
  - by rewrite Hk in Ht.
  - destruct (str_eq (src_type P (task P self)) "s3") eqn:He; [|done].
    by apply str_eq_true in He.
Qed.

(** X17: a [move] that succeeds ran its transfer to the end, without any
    deletion, and then deleted the source: the deletion is the last event. *)
Theorem move_success_deletes_last (self : FileInfo P) (s s' : state P) :
  move P self s = (Ok tt, s') →
  ∃ s1 evs ev,
    move_transfer P self s = (Ok tt, s1)
    ∧ delete P self s1 = (Ok tt, s')
    ∧ trace P s' = trace P s ++ evs ++ [ev]
    ∧ forallb keeps_source evs = true
    ∧ is_delete ev = true.
Proof.
  unfold move. intros H.
  apply bind_inv_ok in H as ([] & s1 & Ht & Hd).
  destruct (move_transfer_keeps_source P self _ _ _ Ht) as (evs & Hev & Hq).
  pose proof (delete_trace self _ _ _ Hd) as Hdt.
  eexists s1, evs, _. split; [done|]. split; [done|].
  split; [by rewrite Hdt, Hev, <- app_assoc|]. split; [done|].
  by destruct (str_eq _ "s3").
Qed.

(** X18: [copy] does nothing when the options are rejected; otherwise it
    issues one CopyObject whose [copy_source] is the quoted source, and its
    outcome is the outcome of that call alone: the response is not looked
    at. *)
Theorem copy_one_call_no_check (self : FileInfo P) (s s' : state P) r :
  copy P self s = (r, s') →
  (∃ e p', _handle_object_params P self (copy_params P self) = (Raise e, p')
           ∧ r = Raise e ∧ s' = s)
  ∨ (∃ request,
       _handle_object_params P self (copy_params P self) = (Ok tt, request)
       ∧ trace P s' = trace P s ++ [EvOperate P "CopyObject" request]
       ∧ request !! "copy_source"
         = Some (PStr (quote P (src P (task P self))))
       ∧ (∀ x w, operate_call P (service P (task P self)) "CopyObject"
                   request (world P s) = (Ok x, w) → r = Ok tt)
       ∧ (∀ e w, operate_call P (service P (task P self)) "CopyObject"
                   request (world P s) = (Raise e, w) → r = Raise e)).
Proof.
  unfold copy. intros H.
  destruct (_handle_object_params P self (copy_params P self))
    as [[[]|e] request] eqn:Hp.
  - right. exists request. split; [done|].
    rewrite (bind_ok _ _ _ _ _ (on_params_ok P _ _ _ s Hp)) in H.
    unfold bind in H.
    destruct (operate P _ "CopyObject" request s) as [[x|e] s1] eqn:Hop;
      pose proof (operate_trace P _ _ _ _ _ _ Hop) as Ht;
      injection H as <- <-; (split; [done|]); split.
    1,3: rewrite (_handle_object_params_touches self _ _ _ "copy_source" Hp)
           by decide_key;
         unfold copy_params;
         destruct (find_bucket_key P (dest P self)); by simplify_map_eq.
    all: unfold operate, syscall in Hop; split; intros ? ? Hc;
      rewrite Hc in Hop; by inversion Hop.
  - left. exists e, request.
    rewrite (bind_raise _ _ _ _ _ (on_params_raise P _ _ _ _ s Hp)) in H.
    by injection H as <- <-.
Qed.


End TransferEvents.

(** ** Listing columns *)

Lemma length_append (a b : string) :
  String.length (a +:+ b) = (String.length a + String.length b)%nat.
Proof.
  induction a as [|c a IH]; [reflexivity|].
  change (S (String.length (a +:+ b))
          = S (String.length a + String.length b)). by rewrite IH.
Qed.

Lemma length_repeat_char c n : String.length (repeat_char c n) = n.
Proof. induction n as [|n IH]; [reflexivity|]. cbn. by rewrite IH. Qed.

(** X20: [make_size_str] never cuts the size: the result is [str(size)]
    with spaces in front, ten characters wide, or as wide as [str(size)]
    when that is longer. *)
Theorem make_size_str_width (size : jval) :
  make_size_str size
  = repeat_char " " (10 - String.length (py_str size)) +:+ py_str size
  ∧ String.length (make_size_str size)
    = Nat.max 10 (String.length (py_str size)).
Proof.
  split; [reflexivity|].
  unfold make_size_str, rjust. rewrite length_append, length_repeat_char. lia.
Qed.

(** Checking a property of the integers below a bound, one by one. *)
Lemma checked_below (f : Z → bool) (n : Z) :
  forallb (fun k => f (Z.of_nat k)) (seq 0 (Z.to_nat n)) = true →
  ∀ z, 0 ≤ z < n → f z = true.
Proof.
  intros H z Hz. rewrite forallb_forall in H.
  rewrite <- (Z2Nat.id z) by lia. apply H. apply in_seq. lia.
Qed.

Lemma two_digits (z : Z) :
  0 ≤ z < 100 → String.length (zfill 2 (pretty z)) = 2%nat.
Proof.
  intros Hz.
  apply Nat.eqb_eq.
  apply (checked_below
           (fun z => Nat.eqb (String.length (zfill 2 (pretty z))) 2) 100);
    [by vm_compute | lia].
Qed.

Lemma year_digits (z : Z) :
  0 ≤ z < 10000 →
  (String.length (pretty z) ≤ 4)%nat
  ∧ (1000 ≤ z → String.length (pretty z) = 4%nat).
Proof.
  intros Hz.
  assert (H : (if Z.ltb z 1000
               then Nat.leb (String.length (pretty z)) 4
               else Nat.eqb (String.length (pretty z)) 4) = true).
  { apply (checked_below
             (fun z => if Z.ltb z 1000
                       then Nat.leb (String.length (pretty z)) 4
                       else Nat.eqb (String.length (pretty z)) 4) 10000);
      [by vm_compute | lia]. }
  destruct (Z.ltb z 1000) eqn:Hlt.
  - apply Z.ltb_lt in Hlt. apply Nat.leb_le in H. split; [done|lia].
  - apply Nat.eqb_eq in H. split; [lia|done].
Qed.

Lemma string_of_length_2 (s : string) :
  String.length s = 2%nat → ∃ a b, s = String a (String b "").
Proof.
  destruct s as [|a [|b [|c s]]]; try discriminate. intros _. by exists a, b.
Qed.

Lemma string_of_length_4 (s : string) :
  String.length s = 4%nat →
  ∃ a b c d, s = String a (String b (String c (String d ""))).
Proof.
  destruct s as [|a [|b [|c [|d [|e s]]]]]; try discriminate.
  intros _. by exists a, b, c, d.
Qed.

Lemma valid_datetime_ranges (d : datetime) :
  valid_datetime d = true →
  1 ≤ year d ≤ 9999 ∧ 1 ≤ month d ≤ 12 ∧ 1 ≤ day d ≤ 31
  ∧ 0 ≤ hour d ≤ 23 ∧ 0 ≤ minute d ≤ 59 ∧ 0 ≤ second d ≤ 59.
Proof.
  unfold valid_datetime. rewrite !andb_true_iff, !Z.leb_le. lia.
Qed.

(** X21: what [make_last_mod_str] returns is the formatted local time of the
    parsed argument; for a [datetime] within the calendar ranges it is
    exactly 19 characters long, and from year 1000 on it has the layout
    YYYY-MM-DD HH:MM:SS. *)
Theorem make_last_mod_str_layout (D : Dateutil) (last_mod : jval) (out : string) :
  make_last_mod_str D last_mod = Ok out →
  ∃ parsed local,
    dateutil_parse D last_mod = Ok parsed
    ∧ astimezone_tzlocal D parsed = Ok local
    ∧ out = format_last_mod local
    ∧ (valid_datetime local = true →
       String.length out = 19%nat
       ∧ (1000 ≤ year local →
          String.get 4 out = Some "-"%char
          ∧ String.get 7 out = Some "-"%char
          ∧ String.get 10 out = Some " "%char
          ∧ String.get 13 out = Some ":"%char
          ∧ String.get 16 out = Some ":"%char)).
Proof.
  unfold make_last_mod_str.
  destruct (dateutil_parse D last_mod) as [parsed|e] eqn:Hparse; [|discriminate].
  destruct (astimezone_tzlocal D parsed) as [local|e] eqn:Hlocal; [|discriminate].
  intros [= <-]. exists parsed, local.
  split; [done|]. split; [done|]. split; [done|]. intros Hv.
  apply valid_datetime_ranges in Hv as (Hy & Hm & Hd & Hh & Hmi & Hs).
  destruct (year_digits (year local) ltac:(lia)) as [Hy4 Hy4'].
  split.
  - unfold format_last_mod, ljust.
    rewrite length_append, length_repeat_char, !length_append.
    rewrite !two_digits by lia. cbn [String.length]. lia.
  - intros Hy1000. unfold format_last_mod.
    destruct (string_of_length_4 _ (Hy4' Hy1000))
      as (y1 & y2 & y3 & y4 & ->).
    destruct (string_of_length_2 _ (two_digits (month local) ltac:(lia)))
      as (m1 & m2 & ->).
    destruct (string_of_length_2 _ (two_digits (day local) ltac:(lia)))
      as (d1 & d2 & ->).
    destruct (string_of_length_2 _ (two_digits (hour local) ltac:(lia)))
      as (h1 & h2 & ->).
    destruct (string_of_length_2 _ (two_digits (minute local) ltac:(lia)))
      as (n1 & n2 & ->).
    destruct (string_of_length_2 _ (two_digits (second local) ltac:(lia)))
      as (s1 & s2 & ->).
    repeat split; reflexivity.
Qed.

(** ** Binding and buckets *)

Section Binding.
Context (P : Platform).

(** X22: after [TaskInfo.__init__] the service and the endpoint are bound
    together or not at all: both are set, to the 's3' service of the session
    and its endpoint for the region, exactly when a session and a non-empty
    region were given; the other attributes are the arguments. *)
Theorem TaskInfo_init_binding (src0 : string) (src_type0 operation0 : option string)
    (session0 : option (Session P)) (region0 : option string) :
  let self := TaskInfo_init P src0 src_type0 operation0 session0 region0 in
  (is_Some (service P self) ↔ is_Some (endpoint P self))
  ∧ (is_Some (service P self) ↔
     ∃ sess reg, session0 = Some sess ∧ region0 = Some reg ∧ reg ≠ "")
  ∧ (∀ sess reg, session0 = Some sess → region0 = Some reg → reg ≠ "" →
       service P self = Some (get_service P sess "s3")
       ∧ endpoint P self
         = Some (get_endpoint P (get_service P sess "s3") reg))
  ∧ src P self = src0 ∧ src_type P self = src_type0
  ∧ session P self = session0 ∧ region P self = region0.
Proof.
  intros self. subst self. unfold TaskInfo_init, is_Some.
  destruct session0 as [sess|], region0 as [reg|]; cbn;
    [destruct (String.eqb reg "") eqn:He; cbn;
     [apply String.eqb_eq in He | apply String.eqb_neq in He]|..];
    naive_solver.
Qed.

(** X23: [remove_bucket] issues one DeleteBucket whose request has the
    endpoint and the bucket and nothing else, whatever the region: no
    location constraint and no key. *)
Theorem remove_bucket_request (self : TaskInfo P) (s : state P) :
  ∃ r s',
    remove_bucket P self s = (r, s')
    ∧ trace P s' = trace P s ++
        [EvOperate P "DeleteBucket"
           (<["bucket" := PStr (find_bucket_key P (src P self)).1]>
              (<["endpoint" := pval_of_endpoint P (endpoint P self)]> ∅))].
Proof.
  unfold remove_bucket.
  destruct (find_bucket_key P (src P self)) as [bucket key]. cbn [fst].
  unfold bind.
  destruct (operate P (service P self) "DeleteBucket" _ s) as [[x|e] s1] eqn:Hop;
    pose proof (operate_trace P _ _ _ _ _ _ Hop) as Ht; by eexists _, _.
Qed.

End Binding.

(** ** The further properties on the sample tasks *)

Section MoreSampleRuns.
Import Sample MoreSamples.

Abbreviation MP := Mem.platform.

Lemma pipeline_needs_every_option_witness :
  (_handle_object_params MP up (upload_params MP up hi)).1 = Ok tt
  ∧ is_Some (parameters MP up !! "grants").
Proof.
  split; [reflexivity|].
  exact (pipeline_needs_every_option MP up (upload_params MP up hi) _
           eq_refl "grants" ltac:(decide_key)).
Defined.

Lemma default_parameters_lack_grants_witness :
  copy MP bare s0 = (Raise (KeyError "grants"), s0).
Proof.
  destruct (default_parameters_lack_grants MP local_task "bkt/dir/a.json"
              None None None (Some "s3") None (or_introl eq_refl))
    as (_ & Hcopy & _).
  exact (Hcopy s0).
Defined.

Lemma pipeline_no_options_identity_witness :
  _handle_object_params MP cp (copy_params MP cp)
  = (Ok tt, copy_params MP cp).
Proof.
  apply (pipeline_no_options_identity MP cp).
  intros k Hk. unfold option_names in Hk.
  repeat (apply elem_of_cons in Hk as [->|Hk]);
    try (by apply elem_of_nil in Hk); eexists; split; reflexivity.
Defined.

Lemma pass_through_first_element_witness :
  ∃ request,
    _handle_object_params MP meta (upload_params MP meta hi) = (Ok tt, request)
    ∧ request !! "website_redirect_location" = Some (PStr "/index.html").
Proof.
  eexists. split; [reflexivity|].
  exact (pass_through_first_element MP meta (upload_params MP meta hi) _
           "website_redirect" "website_redirect_location" "/index.html" []
           eq_refl ltac:(decide_key) eq_refl).
Defined.

Lemma sse_forces_aes256_witness :
  ∃ request,
    _handle_object_params MP meta (upload_params MP meta hi) = (Ok tt, request)
    ∧ request !! "server_side_encryption" = Some (PStr "AES256").
Proof.
  eexists. split; [reflexivity|].
  exact (sse_forces_aes256 MP meta (upload_params MP meta hi) _ (OBool true)
           eq_refl eq_refl).
Defined.

Lemma falsy_option_leaves_parameter_witness :
  ∃ request,
    _handle_object_params MP meta (upload_params MP meta hi) = (Ok tt, request)
    ∧ request !! "cache_control" = None.
Proof.
  eexists. split; [reflexivity|].
  etransitivity.
  - apply (falsy_option_leaves_parameter MP meta (upload_params MP meta hi) _
             "cache_control" "cache_control" ONone
             eq_refl ltac:(decide_key) eq_refl eq_refl).
    intros H. discriminate H.
  - reflexivity.
Defined.

Lemma pipeline_keeps_request_witness :
  ∃ request,
    _handle_object_params MP up (upload_params MP up hi) = (Ok tt, request)
    ∧ request !! "body" = Some (PByteArray hi)
    ∧ request !! "key" = Some (PStr "dir/a.json").
Proof.
  eexists. split; [reflexivity|].
  destruct (pipeline_keeps_request MP up (upload_params MP up hi) _ _ eq_refl)
    as [Hsame _].
  split.
  - etransitivity; [apply Hsame; decide_key | reflexivity].
  - etransitivity; [apply Hsame; decide_key | reflexivity].
Defined.

Lemma grant_principal_kept_whole_witness :
  grant_step MP "read=uri=http://acs.amazonaws.com/groups/global/AllUsers" ∅
  = (Ok tt,
     {["grant_read" :=
         PStr "uri=http://acs.amazonaws.com/groups/global/AllUsers"]}).
Proof.
  exact (grant_principal_kept_whole MP "read"
           "uri=http://acs.amazonaws.com/groups/global/AllUsers" "grant_read"
           ∅ eq_refl).
Defined.

Lemma last_grant_wins_witness :
  ∃ p', grants_loop MP ["read=alice"; "full=bob"; "read=carol"; "full=dave"] ∅
        = (Ok tt, p')
        ∧ p' !! "grant_read" = Some (PStr "carol").
Proof.
  apply (last_grant_wins MP ["read=alice"; "full=bob"] ["full=dave"]
           "read=carol" "grant_read" ∅ eq_refl eq_refl).
  repeat constructor. intros H. vm_compute in H. discriminate H.
Defined.

Lemma save_file_acts_only_when_checked_witness :
  let run := save_file MP "/home/u/new/k.txt" response_bad (Some last_mod) s0 in
  run.2 = s0
  ∨ ∃ data tag,
      response_bad !! "Body" = Some (RBody data)
      ∧ response_bad !! "ETag" = Some (RStr tag)
      ∧ slice_1_m1 tag = md5_hexdigest MP data.
Proof.
  intros run.
  apply (save_file_acts_only_when_checked MP "/home/u/new/k.txt" response_bad
           (Some last_mod) s0 run.2 run.1).
  apply surjective_pairing.
Defined.

Lemma save_file_without_last_update_witness :
  let run := save_file MP "/home/u/new/k.txt" response_ok None s0 in
  run.1 = Raise (AttributeError "'NoneType' object has no attribute 'timetuple'")
  ∧ (∃ evs, trace MP run.2 = trace MP s0 ++ evs
            ∧ forallb (fun ev => negb (is_utime ev)) evs = true)
  ∧ Mem.content <$> Mem.files (world MP run.2) !! "/home/u/new/k.txt" = Some hi.
Proof.
  intros run.
  destruct (save_file_without_last_update MP "/home/u/new/k.txt" response_ok
              s0 run.2 run.1 (surjective_pairing _)) as (_ & Hev & _).
  split; [vm_compute; reflexivity|]. split; [exact Hev|].
  vm_compute; reflexivity.
Defined.

Lemma read_file_closes_file_witness :
  let run := read_file MP "/home/u/a.json" s0 in
  run.1 = Ok hi
  ∧ trace MP run.2 = [EvOpen MP "/home/u/a.json" "rb";
                      EvRead MP "/home/u/a.json";
                      EvClose MP "/home/u/a.json"].
Proof.
  intros run. split; [vm_compute; reflexivity|].
  destruct (read_file_closes_file MP "/home/u/a.json" s0 run.2 run.1
              (surjective_pairing _)) as [(e & w & Ho & _)|[Ht _]].
  - assert (Hok : (os_open MP "/home/u/a.json" "rb" (world MP s0)).1 = Ok tt)
      by (vm_compute; reflexivity).
    rewrite Ho in Hok. discriminate Hok.
  - exact Ht.
Defined.

Lemma upload_remote_call_is_last_witness :
  let run := upload MP up s0 in
  ∃ pre, forallb is_file_event pre = true
         ∧ ((trace MP run.2 = trace MP s0 ++ pre ∧ ∃ e, run.1 = Raise e)
            ∨ ∃ request,
                trace MP run.2 = trace MP s0 ++ pre
                                   ++ [EvOperate MP "PutObject" request]).
Proof.
  intros run.
  exact (upload_remote_call_is_last MP up s0 run.2 run.1
           (surjective_pairing _)).
Defined.

Lemma download_starts_with_get_object_witness :
  let run := download MP down s_offline in
  run.1 = Raise (ServiceError "GetObject")
  ∧ Mem.files (world MP run.2) !! "/home/u/new/k.txt" = None
  ∧ ∃ post, trace MP run.2
            = trace MP s_offline ++
                EvOperate MP "GetObject"
                  (object_params MP down "bkt" "k.txt") :: post
            ∧ forallb is_local post = true.
Proof.
  intros run.
  split; [vm_compute; reflexivity|]. split; [vm_compute; reflexivity|].
  destruct (download_starts_with_get_object MP down s_offline run.2 run.1
              (surjective_pairing _)) as (post & Ht & Hq & _).
  exists post. split; [exact Ht | exact Hq].
Defined.

Lemma delete_one_event_witness :
  let run := delete MP down s0 in
  trace MP run.2
  = [EvOperate MP "DeleteObject" (object_params MP down "bkt" "k.txt")].
Proof.
  intros run.
  destruct (delete_one_event MP down s0 run.2 run.1 (surjective_pairing _))
    as [H _].
  exact (H eq_refl).
Defined.

Lemma move_success_deletes_last_witness :
  let run := move MP up s0 in
  run.1 = Ok tt
  ∧ ∃ s1 evs ev,
      move_transfer MP up s0 = (Ok tt, s1)
      ∧ delete MP up s1 = (Ok tt, run.2)
      ∧ trace MP run.2 = trace MP s0 ++ evs ++ [ev]
      ∧ forallb keeps_source evs = true
      ∧ is_delete ev = true.
Proof.
  intros run.
  assert (Hrun : run.1 = Ok tt) by (vm_compute; reflexivity).
  split; [exact Hrun|].
  apply (move_success_deletes_last MP up s0 run.2).
  rewrite <- Hrun. apply surjective_pairing.
Defined.

Lemma copy_one_call_no_check_witness :
  let run := copy MP cp s0 in
  run.1 = Ok tt
  ∧ Mem.store (world MP run.2) !! "bkt/copy.txt" = Some hi
  ∧ ∃ request,
      trace MP run.2 = trace MP s0 ++ [EvOperate MP "CopyObject" request]
      ∧ request !! "copy_source" = Some (PStr "bkt/k.txt").
Proof.
  intros run.
  split; [vm_compute; reflexivity|]. split; [vm_compute; reflexivity|].
  destruct (copy_one_call_no_check MP cp s0 run.2 run.1 (surjective_pairing _))
    as [(e & p' & Hp & _)|(request & _ & Ht & Hsrc & _)].
  - assert (Hok : (_handle_object_params MP cp (copy_params MP cp)).1 = Ok tt)
      by (vm_compute; reflexivity).
    rewrite Hp in Hok. discriminate Hok.
  - exists request. split; [exact Ht | exact Hsrc].
Defined.


Lemma make_last_mod_str_layout_witness :
  make_last_mod_str fixed_dates (JStr "2014-03-01T12:00:00.123456Z")
  = Ok "2014-03-01 12:00:00"
  ∧ String.length "2014-03-01 12:00:00" = 19%nat.
Proof.
  split; [by vm_compute|].
  destruct (make_last_mod_str_layout fixed_dates
              (JStr "2014-03-01T12:00:00.123456Z") "2014-03-01 12:00:00"
              ltac:(by vm_compute))
    as (parsed & local & Hp & Hl & Hout & Hlay).
  apply Hlay. injection Hp as <-. injection Hl as <-. reflexivity.
Defined.

End MoreSampleRuns.

(** ** Paths in a listing *)

Lemma append_assoc (a b c : string) : (a +:+ b) +:+ c = a +:+ (b +:+ c).
Proof.
  induction a as [|x a IH]; [reflexivity|].
  change (String x ((a +:+ b) +:+ c) = String x (a +:+ (b +:+ c))).
  by rewrite IH.
Qed.

Lemma split_slash_nonempty (s : string) : split_slash s ≠ [].
Proof.
  destruct s as [|c rest]; [done|]. cbn [split_slash].
  destruct (Ascii.eqb c "/"); [done|]. by destruct (split_slash rest).
Qed.

Lemma join_slash_cons (a : string) (l : list string) :
  l ≠ [] → join_slash (a :: l) = a +:+ "/" +:+ join_slash l.
Proof. by destruct l. Qed.

Lemma split_slash_join (s : string) : join_slash (split_slash s) = s.
Proof.
  induction s as [|c rest IH]; [reflexivity|]. cbn [split_slash].
  destruct (Ascii.eqb c "/") eqn:Hc.
  - apply Ascii.eqb_eq in Hc. subst c.
    rewrite join_slash_cons by apply split_slash_nonempty. by rewrite IH.
  - pose proof (split_slash_nonempty rest) as Hne.
    destruct (split_slash rest) as [|a tl]; [done|].
    destruct tl as [|b tl].
    + cbn in IH. cbn. by rewrite IH.
    + rewrite join_slash_cons by done. rewrite join_slash_cons in IH by done.
      change (String c (a +:+ "/" +:+ join_slash (b :: tl)) = String c rest).
      by rewrite IH.
Qed.

Lemma split_slash_no_slash (s : string) :
  Forall (fun c => has_slash c = false) (split_slash s).
Proof.
  induction s as [|c rest IH]; [by repeat constructor|]. cbn [split_slash].
  destruct (Ascii.eqb c "/") eqn:Hc; [by constructor|].
  destruct (split_slash rest) as [|a tl].
  - repeat constructor. cbn. by rewrite Hc.
  - apply Forall_cons in IH as [Ha Htl]. constructor; [|done].
    cbn. by rewrite Hc, Ha.
Qed.

Lemma split_slash_single (s : string) :
  has_slash s = false → split_slash s = [s].
Proof.
  induction s as [|c rest IH]; [done|]. cbn [has_slash split_slash].
  intros [Hc Hr]%orb_false_iff. rewrite Hc, (IH Hr). reflexivity.
Qed.

Lemma join_slash_snoc (init : list string) (x : string) :
  init ≠ [] → join_slash (init ++ [x]) = join_slash init +:+ "/" +:+ x.
Proof.
  induction init as [|a init IH]; [done|]. intros _.
  destruct init as [|b init]; [reflexivity|].
  change (a +:+ "/" +:+ join_slash ((b :: init) ++ [x])
          = (a +:+ "/" +:+ join_slash (b :: init)) +:+ "/" +:+ x).
  rewrite IH by done. by rewrite !append_assoc.
Qed.

(** The last component of a path: what follows its last ['/']. *)
Lemma item_m1_split (s name : string) :
  item_m1 (split_slash s) = Ok name →
  has_slash name = false
  ∧ ∃ dir, s = dir +:+ name ∧ (dir = "" ∨ ∃ d, dir = d +:+ "/").
Proof.
  unfold item_m1. destruct (rev (split_slash s)) as [|x r] eqn:Hrev; [done|].
  intros [= ->].
  assert (Hs : split_slash s = rev r ++ [name]).
  { rewrite <- (rev_involutive (split_slash s)), Hrev. reflexivity. }
  pose proof (split_slash_no_slash s) as Hall. rewrite Hs in Hall.
  apply Forall_app in Hall as [_ Hname]. apply Forall_cons in Hname as [Hname _].
  split; [done|].
  pose proof (split_slash_join s) as Hj. rewrite Hs in Hj.
  destruct (rev r) as [|a init] eqn:Hr.
  - exists "". split; [by rewrite <- Hj | by left].
  - rewrite join_slash_snoc in Hj by done.
    exists (join_slash (a :: init) +:+ "/"). split.
    + by rewrite append_assoc.
    + right. by eexists.
Qed.

Lemma item_m1_split_ok (s : string) : ∃ name, item_m1 (split_slash s) = Ok name.
Proof.
  unfold item_m1. destruct (rev (split_slash s)) as [|x r] eqn:Hrev; [|by eexists].
  apply (f_equal (@rev string)) in Hrev. rewrite rev_involutive in Hrev.
  by apply split_slash_nonempty in Hrev.
Qed.

(** The component before the last ['/'] of a path. *)
Lemma item_m2_split (s seg : string) :
  item_m2 (split_slash s) = Ok seg →
  has_slash seg = false
  ∧ ∃ parent last,
      s = parent +:+ seg +:+ "/" +:+ last
      ∧ has_slash last = false
      ∧ (parent = "" ∨ ∃ d, parent = d +:+ "/").
Proof.
  unfold item_m2.
  destruct (rev (split_slash s)) as [|last [|x r]] eqn:Hrev; try done.
  intros [= ->].
  assert (Hs : split_slash s = (rev r ++ [seg]) ++ [last]).
  { rewrite <- (rev_involutive (split_slash s)), Hrev. reflexivity. }
  pose proof (split_slash_no_slash s) as Hall. rewrite Hs in Hall.
  apply Forall_app in Hall as [Hinit Hlast].
  apply Forall_cons in Hlast as [Hlast _].
  apply Forall_app in Hinit as [_ Hseg]. apply Forall_cons in Hseg as [Hseg _].
  split; [done|].
  pose proof (split_slash_join s) as Hj. rewrite Hs in Hj.
  rewrite join_slash_snoc in Hj by (by destruct (rev r)).
  destruct (rev r) as [|a init] eqn:Hr.
  - exists "", last. split; [by rewrite <- Hj|]. split; [done|by left].
  - rewrite join_slash_snoc in Hj by done.
    exists (join_slash (a :: init) +:+ "/"), last. split.
    + rewrite <- Hj. by rewrite !append_assoc.
    + split; [done|]. right. by eexists.
Qed.

Lemma item_m2_no_slash (s : string) :
  has_slash s = false → item_m2 (split_slash s) = Raise IndexError.
Proof. intros H. by rewrite (split_slash_single s H). Qed.

(** ** What a listing prints *)

Section ListingOutput.
Context {P : Platform} (C : Console P).

Lemma say_printed o (s s' : lstate) r :
  say C o s = (r, s') → printed s' = printed s ++ [o].
Proof.
  unfold say. destruct (stdout C o (lworld s)) as [r0 w]. by intros [= <- <-].
Qed.

Lemma remote_inv {A} (h : World P → result A * World P) (s s' : lstate) r :
  remote h s = (r, s') → printed s' = printed s ∧ h (lworld s) = (r, lworld s').
Proof.
  unfold remote. destruct (h (lworld s)) as [r0 w]. by intros [= <- <-].
Qed.

Lemma for_each_rows {A B} (body : A → SE (lstate (P := P)) unit)
    (rel : A → B → Prop) (line : B → list output) :
  (∀ x s s', body x s = (Ok tt, s') →
     ∃ row, rel x row ∧ printed s' = printed s ++ line row) →
  ∀ l s s', for_each body l s = (Ok tt, s') →
    ∃ rows, Forall2 rel l rows
            ∧ printed s' = printed s ++ flat_map line rows.
Proof.
  intros Hbody l. induction l as [|x rest IH]; intros s s' H.
  - injection H as <-. exists []. split; [constructor|]. by rewrite app_nil_r.
  - cbn [for_each] in H. apply bind_inv_ok in H as ([] & s1 & Hx & Hrest).
    destruct (Hbody _ _ _ Hx) as (row & Hrow & Hp1).
    destruct (IH _ _ Hrest) as (rows & Hrows & Hp2).
    exists (row :: rows). split; [by constructor|].
    cbn [flat_map]. by rewrite Hp2, Hp1, <- app_assoc.
Qed.

Lemma print_bucket_ok bucket (s s' : lstate) :
  print_bucket C bucket s = (Ok tt, s') →
  ∃ row, bucket_row (dates C) bucket row
         ∧ printed s' = printed s ++ bucket_line row.
Proof.
  unfold print_bucket. intros H.
  apply bind_inv_ok in H as (date & s1 & Hd & H).
  apply lift_inv_ok in Hd as [Hd ->].
  apply bind_inv_ok in H as (last_mod_str & s1 & Hm & H).
  apply lift_inv_ok in Hm as [Hm ->].
  apply bind_inv_ok in H as (name_v & s1 & Hn & H).
  apply lift_inv_ok in Hn as [Hn ->].
  apply bind_inv_ok in H as (name & s1 & Ht & H).
  apply lift_inv_ok in Ht as [Ht ->].
  apply bind_inv_ok in H as ([] & s1 & Hsay & Hflush).
  exists (last_mod_str, name). split.
  - exists date. unfold getitem in Hd, Hn.
    destruct (bucket !! "CreationDate"); [|done]. injection Hd as ->.
    destruct (bucket !! "Name") as [[x|z]|]; try done;
      injection Hn as <-; [|done].
    injection Ht as <-. done.
  - unfold bucket_line. cbn [fst snd].
    by rewrite (say_printed _ _ _ _ Hflush), (say_printed _ _ _ _ Hsay),
         <- app_assoc.
Qed.

Lemma print_prefix_ok common_prefix (s s' : lstate) :
  print_prefix C common_prefix s = (Ok tt, s') →
  ∃ seg, prefix_row common_prefix seg
         ∧ printed s' = printed s ++ prefix_line seg.
Proof.
  unfold print_prefix. intros H.
  apply bind_inv_ok in H as (prefix_v & s1 & Hv & H).
  apply lift_inv_ok in Hv as [Hv ->].
  apply bind_inv_ok in H as (comps & s1 & Hc & H).
  apply lift_inv_ok in Hc as [Hc ->].
  apply bind_inv_ok in H as (seg & s1 & Hs & H).
  apply lift_inv_ok in Hs as [Hs ->].
  apply bind_inv_ok in H as ([] & s1 & Hsay & Hflush).
  exists seg. split.
  - unfold getitem in Hv.
    destruct (common_prefix !! "Prefix") as [[prefix|z]|] eqn:Hp; try done;
      injection Hv as <-; [|done].
    injection Hc as <-. by exists prefix.
  - unfold prefix_line.
    by rewrite (say_printed _ _ _ _ Hflush), (say_printed _ _ _ _ Hsay),
         <- app_assoc.
Qed.

Lemma print_content_ok content (s s' : lstate) :
  print_content C content s = (Ok tt, s') →
  ∃ row, content_row (dates C) content row
         ∧ printed s' = printed s ++ content_line row.
Proof.
  unfold print_content. intros H.
  apply bind_inv_ok in H as (date & s1 & Hd & H).
  apply lift_inv_ok in Hd as [Hd ->].
  apply bind_inv_ok in H as (last_mod_str & s1 & Hm & H).
  apply lift_inv_ok in Hm as [Hm ->].
  apply bind_inv_ok in H as (size & s1 & Hz & H).
  apply lift_inv_ok in Hz as [Hz ->].
  apply bind_inv_ok in H as (key_v & s1 & Hk & H).
  apply lift_inv_ok in Hk as [Hk ->].
  apply bind_inv_ok in H as (comps & s1 & Hc & H).
  apply lift_inv_ok in Hc as [Hc ->].
  apply bind_inv_ok in H as (filename & s1 & Hf & H).
  apply lift_inv_ok in Hf as [Hf ->].
  apply bind_inv_ok in H as ([] & s1 & Hsay & Hflush).
  exists (last_mod_str, make_size_str size, filename). split.
  - unfold getitem in Hd, Hz, Hk.
    destruct (content !! "LastModified") eqn:E1; [|done]. injection Hd as ->.
    destruct (content !! "Size") eqn:E2; [|done]. injection Hz as ->.
    destruct (content !! "Key") as [[key|z]|] eqn:E3; try done;
      injection Hk as <-; [|done].
    injection Hc as <-. exists date, size, key. cbn [fst snd].
    repeat split; done.
  - unfold content_line. cbn [fst snd].
    by rewrite (say_printed _ _ _ _ Hflush), (say_printed _ _ _ _ Hsay),
         <- app_assoc.
Qed.

End ListingOutput.

Section ListingTheorems.
Context {P : Platform} (C : Console P).

(** X24: a listing of all buckets that returns has written the two header
    lines and then, for each bucket of the response in order, one line made
    of the 19-column creation time, a space and the name, each line followed
    by a flush; nothing else is printed. *)
Theorem list_buckets_lines (self : TaskInfo P) (s s' : lstate) :
  (find_bucket_key P (src P self)).1 = "" →
  list_objects C self s = (Ok tt, s') →
  ∃ response buckets rows,
    (list_buckets_call C (service P self) (endpoint P self) (lworld s)).1
    = Ok response
    ∧ response !! "Buckets" = Some buckets
    ∧ Forall2 (bucket_row (dates C)) buckets rows
    ∧ printed s' = printed s ++
        [OutWrite (nl +:+ "       CreationTime Bucket" +:+ nl);
         OutWrite ("       ------------ ------" +:+ nl)]
        ++ flat_map bucket_line rows.
Proof.
  unfold list_objects. destruct (find_bucket_key P (src P self)) as [bucket key].
  cbn [fst]. intros -> H. cbn [String.eqb] in H.
  apply bind_inv_ok in H as (response & s1 & Hcall & H).
  apply remote_inv in Hcall as [Hp1 Hcall].
  apply bind_inv_ok in H as ([] & s2 & Hw1 & H).
  apply bind_inv_ok in H as ([] & s3 & Hw2 & H).
  apply bind_inv_ok in H as (buckets & s4 & Hb & H).
  apply lift_inv_ok in Hb as [Hb ->].
  destruct (for_each_rows (print_bucket C) (bucket_row (dates C)) bucket_line
              (print_bucket_ok C) _ _ _ H) as (rows & Hrows & Hp).
  exists response, buckets, rows. split; [by rewrite Hcall|]. split.
  { unfold getitem in Hb. by destruct (response !! "Buckets") as [x|]; simplify_eq. }
  split; [done|].
  rewrite Hp, (say_printed _ _ _ _ _ Hw2), (say_printed _ _ _ _ _ Hw1), Hp1.
  by rewrite <- !app_assoc.
Qed.

(** X25: a page of an object listing that printed was fetched, passed
    [check_error], and gave first one PRE line per common prefix and then one
    line per object, each in the order of the response and each followed by
    a flush. *)
Theorem print_page_lines fetch (s s' : lstate) :
  print_page C fetch s = (Ok tt, s') →
  ∃ response prefixes contents segs rows,
    (fetch (lworld s)).1 = Ok response
    ∧ check_error C response = Ok tt
    ∧ response !! "CommonPrefixes" = Some prefixes
    ∧ response !! "Contents" = Some contents
    ∧ Forall2 prefix_row prefixes segs
    ∧ Forall2 (content_row (dates C)) contents rows
    ∧ printed s' = printed s ++ flat_map prefix_line segs
                             ++ flat_map content_line rows.
Proof.
  unfold print_page. intros H.
  apply bind_inv_ok in H as (response & s1 & Hf & H).
  apply remote_inv in Hf as [Hp1 Hf].
  apply bind_inv_ok in H as ([] & s2 & Hc & H).
  apply lift_inv_ok in Hc as [Hc ->].
  apply bind_inv_ok in H as (prefixes & s2 & Hcp & H).
  apply lift_inv_ok in Hcp as [Hcp ->].
  apply bind_inv_ok in H as (contents & s2 & Hct & H).
  apply lift_inv_ok in Hct as [Hct ->].
  apply bind_inv_ok in H as ([] & s2 & Hpre & Hcon).
  destruct (for_each_rows (print_prefix C) prefix_row prefix_line
              (print_prefix_ok C) _ _ _ Hpre) as (segs & Hsegs & Hp2).
  destruct (for_each_rows (print_content C) (content_row (dates C))
              content_line (print_content_ok C) _ _ _ Hcon)
    as (rows & Hrows & Hp3).
  exists response, prefixes, contents, segs, rows.
  split; [by rewrite Hf|]. split; [done|].
  unfold getitem in Hcp, Hct.
  destruct (response !! "CommonPrefixes") as [x|]; [|done]. injection Hcp as ->.
  destruct (response !! "Contents") as [y|]; [|done]. injection Hct as ->.
  repeat split; try done.
  by rewrite Hp3, Hp2, Hp1, <- app_assoc.
Qed.




(** X26: the name shown for an object is what follows the last ['/'] of its
    key (the whole key when it has none): the line is the time, the size
    right-justified to ten columns and that name. *)
Theorem print_content_shows_basename content (s s' : lstate) :
  print_content C content s = (Ok tt, s') →
  ∃ time size key dir name,
    content !! "Key" = Some (JStr key)
    ∧ content !! "Size" = Some size
    ∧ key = dir +:+ name
    ∧ has_slash name = false
    ∧ (dir = "" ∨ ∃ d, dir = d +:+ "/")
    ∧ printed s' = printed s ++
        [OutUniPrint (time +:+ " " +:+ make_size_str size +:+ " "
                      +:+ name +:+ nl);
         OutFlush].
Proof.
  intros H. apply print_content_ok in H as ([[time size_str] name] & Hrow & Hp).
  destruct Hrow as (date & size & key & _ & _ & Hsize & Hstr & Hkey & Hname).
  cbn [fst snd] in *. subst size_str.
  apply item_m1_split in Hname as (Hns & dir & Hk & Hdir).
  by exists time, size, key, dir, name.
Qed.

(** X27: a common prefix with no ['/'] in it makes [print_prefix] raise
    [IndexError] with nothing printed; when it prints, the name shown is the
    component just before the last ['/'] of the prefix. *)
Theorem print_prefix_needs_slash common_prefix prefix (s : lstate) :
  common_prefix !! "Prefix" = Some (JStr prefix) →
  (has_slash prefix = false →
   print_prefix C common_prefix s = (Raise IndexError, s))
  ∧ (∀ s', print_prefix C common_prefix s = (Ok tt, s') →
       ∃ parent seg last,
         prefix = parent +:+ seg +:+ "/" +:+ last
         ∧ has_slash seg = false ∧ has_slash last = false
         ∧ (parent = "" ∨ ∃ d, parent = d +:+ "/")
         ∧ printed s' = printed s ++ prefix_line seg).
Proof.
  intros Hp. split.
  - intros Hns. unfold print_prefix, bind at 1 2 3, lift, getitem.
    rewrite Hp. cbn [split_value]. by rewrite (item_m2_no_slash _ Hns).
  - intros s' H. apply print_prefix_ok in H as (seg & (prefix' & Hp' & Hseg) & Hout).
    rewrite Hp in Hp'. injection Hp' as <-.
    apply item_m2_split in Hseg as (Hns & parent & last & Hpre & Hlast & Hpar).
    by exists parent, seg, last.
Qed.

(** X28: when the listing call cannot be made or fails, [list_objects]
    raises that error before anything is printed: no header, no line. *)
Theorem listing_failure_prints_nothing (self : TaskInfo P) (s : lstate) e :
  (∀ w, (find_bucket_key P (src P self)).1 = "" →
        list_buckets_call C (service P self) (endpoint P self) (lworld s)
        = (Raise e, w) →
        ∃ s', list_objects C self s = (Raise e, s')
              ∧ printed s' = printed s)
  ∧ ((find_bucket_key P (src P self)).1 ≠ "" →
     paginate C (service P self) (endpoint P self)
       (find_bucket_key P (src P self)).1 (find_bucket_key P (src P self)).2
     = Raise e →
     list_objects C self s = (Raise e, s)).
Proof.
  unfold list_objects. destruct (find_bucket_key P (src P self)) as [bucket key].
  cbn [fst snd]. split.
  - intros w -> Hcall. cbn [String.eqb].
    eexists. split.
    + apply bind_raise. unfold remote. rewrite Hcall. reflexivity.
    + reflexivity.
  - intros Hne Hpag. apply String.eqb_neq in Hne. rewrite Hne.
    apply bind_raise. unfold lift. by rewrite Hpag.
Qed.

End ListingTheorems.

Section ListingSamples.
Import MoreSamples.

Lemma list_buckets_lines_witness :
  let run := list_objects console all_buckets l0 in
  run.1 = Ok tt
  ∧ printed run.2 =
      [OutWrite (nl +:+ "       CreationTime Bucket" +:+ nl);
       OutWrite ("       ------------ ------" +:+ nl);
       OutUniPrint ("2014-03-01 12:00:00 bkt" +:+ nl); OutFlush]
  ∧ ∃ (response : gmap string (list (gmap string jval))) buckets rows,
      response !! "Buckets" = Some buckets
      ∧ Forall2 (bucket_row fixed_dates) buckets rows
      ∧ printed run.2 = printed l0 ++
          [OutWrite (nl +:+ "       CreationTime Bucket" +:+ nl);
           OutWrite ("       ------------ ------" +:+ nl)]
          ++ flat_map bucket_line rows.
Proof.
  intros run.
  assert (Hrun : run.1 = Ok tt) by (vm_compute; reflexivity).
  split; [exact Hrun|]. split; [vm_compute; reflexivity|].
  destruct (list_buckets_lines console all_buckets l0 run.2 eq_refl)
    as (response & buckets & rows & _ & Hb & Hrows & Hp).
  - rewrite <- Hrun. apply surjective_pairing.
  - by exists response, buckets, rows.
Defined.

Lemma print_page_lines_witness :
  let run := print_page console (fun w => (Ok one_page, w)) l0 in
  run.1 = Ok tt
  ∧ printed run.2 =
      [OutUniPrint ("                           PRE sub/" +:+ nl); OutFlush;
       OutUniPrint ("2014-03-01 12:00:00          2 k.txt" +:+ nl); OutFlush]
  ∧ ∃ segs rows,
      printed run.2 = printed l0 ++ flat_map prefix_line segs
                                 ++ flat_map content_line rows.
Proof.
  intros run.
  assert (Hrun : run.1 = Ok tt) by (vm_compute; reflexivity).
  split; [exact Hrun|]. split; [vm_compute; reflexivity|].
  destruct (print_page_lines console (fun w => (Ok one_page, w)) l0 run.2)
    as (response & prefixes & contents & segs & rows & _ & _ & _ & _ & _ & _ & Hp).
  - rewrite <- Hrun. apply surjective_pairing.
  - by exists segs, rows.
Defined.


Lemma print_content_shows_basename_witness :
  let run := print_content console nested_object l0 in
  run.1 = Ok tt
  ∧ ∃ time size key dir name,
      nested_object !! "Key" = Some (JStr key)
      ∧ nested_object !! "Size" = Some size
      ∧ key = dir +:+ name
      ∧ has_slash name = false
      ∧ (dir = "" ∨ ∃ d, dir = d +:+ "/")
      ∧ printed run.2 = printed l0 ++
          [OutUniPrint (time +:+ " " +:+ make_size_str size +:+ " "
                        +:+ name +:+ nl);
           OutFlush].
Proof.
  intros run.
  assert (Hrun : run.1 = Ok tt) by (vm_compute; reflexivity).
  split; [exact Hrun|].
  apply (print_content_shows_basename console nested_object l0 run.2).
  rewrite <- Hrun. apply surjective_pairing.
Defined.

Lemma print_prefix_needs_slash_witness :
  print_prefix console flat_prefix l0 = (Raise IndexError, l0).
Proof.
  destruct (print_prefix_needs_slash console flat_prefix "nodirectory" l0
              eq_refl) as [H _].
  exact (H eq_refl).
Defined.

Lemma listing_failure_prints_nothing_witness :
  let unbound : TaskInfo Mem.platform :=
    TaskInfo_init Mem.platform "bkt/dir/" (Some "s3") (Some "ls") None None in
  list_objects console unbound l0
  = (Raise (AttributeError "'NoneType' object has no attribute 'get_operation'"),
     l0).
Proof.
  intros unbound.
  destruct (listing_failure_prints_nothing console unbound l0
              (AttributeError
                 "'NoneType' object has no attribute 'get_operation'"))
    as [_ H].
  apply H; [by vm_compute | reflexivity].
Defined.

End ListingSamples.
